(** * A shallow embedding of the quote scraper (webscraper_demo.py)

    The development follows the source bottom-up:
    - [PyStr]: the [str] methods the scraper calls ([find], [in],
      [split], [strip]);
    - [Soup]: parsed documents and the CSS selections the scraper makes;
    - [Net]: the network as explicit state, and the retry loop that the
      [@retry] decorator wraps around [make_request];
    - [Scraper]: [make_request], [scrape_author_info], [get_text],
      [get_href] and [scrape_quotes];
    - [Reference] and [Samples]: the expected records of a crawl, and a
      small site to run it on;
    - [Csv], [Sink], [Game]: the csv writer and reader, the scraper's
      [write_quotes_to_csv], and the quiz of game_demo1.py;
    - [Exchange] and [Exhibits]: what passes from the scraper's file to the
      quiz, and sample records;
    - [PyStrFacts], [NetFacts], [CrawlFacts]: lemmas on each layer;
    - [Claims]: the properties of the scraper;
    - [CsvFacts], [GameFacts], [TraceFacts]: lemmas on the file, the quiz
      and the log of a crawl;
    - [CrawlExtras], [ExchangeExtras], [GameExtras]: further properties.

    Logging ([logger.info]) and the random User-Agent have no bearing on
    what is fetched or returned and are left out. *)

From Stdlib Require Import Ascii ZArith Lia.
From stdpp Require Import gmap strings list pretty.

(** ** Python strings

    A [str] is modelled as a Rocq [string] whose characters are read as
    code points below 256. *)
Module PyStr.

(** [a.startswith(b)], written with the receiver second as [String.prefix]. *)
Definition startswith (sep s : string) : bool := String.prefix sep s.

(** [s.find(sep)]: index of the first occurrence, [None] for Python's -1. *)
Fixpoint find (sep s : string) : option nat :=
  if startswith sep s then Some 0
  else match s with
       | EmptyString => None
       | String _ s' => S <$> find sep s'
       end.

(** [needle in s]. *)
Definition contains (needle s : string) : bool :=
  match find needle s with Some _ => true | None => false end.

(** [s.split(sep)] for a non-empty [sep]: a left-to-right scan; [skip]
    counts the characters of a matched separator still to be passed over,
    [cur] is the piece being collected. *)
Fixpoint split_from (sep : string) (skip : nat) (cur s : string) : list string :=
  match s with
  | EmptyString => [cur]
  | String c s' =>
      match skip with
      | S k => split_from sep k cur s'
      | O => if startswith sep s
             then cur :: split_from sep (String.length sep - 1) "" s'
             else split_from sep 0 (cur +:+ String c "") s'
      end
  end.

Definition split (sep s : string) : list string := split_from sep 0 "" s.

(** Characters that [str.strip()] removes: the code points below 256 for
    which [str.isspace] holds. *)
Definition isspace (c : ascii) : bool :=
  let n := nat_of_ascii c in
  ((9 <=? n) && (n <=? 13)) || ((28 <=? n) && (n <=? 32))
  || (n =? 133) || (n =? 160).

Fixpoint lstrip (s : string) : string :=
  match s with
  | EmptyString => ""
  | String c s' => if isspace c then lstrip s' else s
  end.

Fixpoint rstrip (s : string) : string :=
  match s with
  | EmptyString => ""
  | String c s' =>
      match rstrip s' with
      | EmptyString => if isspace c then "" else String c ""
      | r => String c r
      end
  end.

Definition strip (s : string) : string := rstrip (lstrip s).

(** A string with no whitespace at either end. *)
Definition first_char (s : string) : option ascii :=
  match s with EmptyString => None | String c _ => Some c end.

Fixpoint last_char (s : string) : option ascii :=
  match s with
  | EmptyString => None
  | String c EmptyString => Some c
  | String _ s' => last_char s'
  end.

Definition space_free_ends (s : string) : Prop :=
  (forall c, first_char s = Some c -> isspace c = false) /\
  (forall c, last_char s = Some c -> isspace c = false).

End PyStr.

(** ** Parsed documents

    [BeautifulSoup(response.text, 'html.parser')] yields a tree of tags and
    strings.  An element's [class] attribute is multi-valued and kept
    apart from the single-valued attributes ([attrs], the tag's dict). *)
Module Soup.

#[local] Set Warnings "-register-all".

Inductive Tag : Type :=
| NavigableString (s : string)
| Element (name : string) (class_ : list string)
          (attrs : gmap string string) (contents : list Tag).

(** A tag together with its chain of parents (nearest first), which is
    what the descendant combinator of a selector inspects. *)
Record element := Located { parents : list Tag; node : Tag }.

(** The object returned by the [BeautifulSoup] constructor. *)
Definition BeautifulSoup (document : Tag) : element :=
  {| parents := []; node := document |}.

(** [tag.text]: every string below the tag, in document order. *)
Fixpoint text_of (t : Tag) : string :=
  match t with
  | NavigableString s => s
  | Element _ _ _ cs =>
      (fix go (l : list Tag) : string :=
         match l with
         | [] => ""
         | c :: l' => text_of c +:+ go l'
         end) cs
  end.

Definition text (e : element) : string := text_of (node e).

(** [tag.get(key, default)]. *)
Definition get (e : element) (key dflt : string) : string :=
  match node e with
  | NavigableString _ => dflt
  | Element _ _ attrs _ => default dflt (attrs !! key)
  end.

(** The elements strictly below a tag, in document (pre-)order. *)
Fixpoint descendants (ps : list Tag) (t : Tag) : list element :=
  match t with
  | NavigableString _ => []
  | Element _ _ _ cs =>
      (fix go (l : list Tag) : list element :=
         match l with
         | [] => []
         | c :: l' =>
             match c with
             | NavigableString _ => go l'
             | Element _ _ _ _ =>
                 {| parents := t :: ps; node := c |}
                   :: descendants (t :: ps) c ++ go l'
             end
         end) cs
  end.

(** The selectors the scraper uses: [name], [name.cls] and
    [name:-soup-contains("needle")], alone or under a descendant
    combinator ([anc sel]). *)
Inductive compound :=
| ByName (name : string)
| ByClass (name cls : string)
| ByContains (name needle : string).

Inductive selector :=
| Sel (c : compound)
| Desc (anc c : compound).

Definition matches_compound (c : compound) (t : Tag) : bool :=
  match t with
  | NavigableString _ => false
  | Element name class_ _ _ =>
      match c with
      | ByName n => bool_decide (name = n)
      | ByClass n cls => bool_decide (name = n) && bool_decide (cls ∈ class_)
      | ByContains n needle =>
          bool_decide (name = n) && PyStr.contains needle (text_of t)
      end
  end.

Definition matches (s : selector) (e : element) : bool :=
  match s with
  | Sel c => matches_compound c (node e)
  | Desc anc c =>
      matches_compound c (node e) && existsb (matches_compound anc) (parents e)
  end.

(** [tag.select(sel)] and [tag.select_one(sel)]. *)
Definition select (e : element) (s : selector) : list element :=
  filter (fun d => matches s d = true) (descendants (parents e) (node e)).

Definition select_one (e : element) (s : selector) : option element :=
  head (select e s).

End Soup.

(** ** The network and the retry loop

    Requests and sleeps are effects; they are recorded in an explicit
    [world] that every computation threads through.  A computation may
    return, raise, or still be running when the simulation budget (the
    fuel of a [while True] loop) is used up.

    The retry loop is that of the [retrying] package, which the program
    imports; it is rendered here for the arguments the program can pass. *)
Module Net.

Inductive exn := RequestException.

Inductive outcome (A : Type) : Type :=
| Returned (a : A)
| Raised (e : exn)
| Pending.
Arguments Returned {A} a.
Arguments Raised {A} e.
Arguments Pending {A}.

Record world := World {
  requests : list string;   (* URLs of the GETs issued so far, oldest first *)
  sleeps : list Z           (* arguments of the sleeps so far, in ms *)
}.

Definition world0 : world := {| requests := []; sleeps := [] |}.

Definition M (A : Type) : Type := world -> outcome A * world.

Definition ret {A} (a : A) : M A := fun w => (Returned a, w).

Definition bind {A B} (m : M A) (k : A -> M B) : M B :=
  fun w =>
    match m w with
    | (Returned a, w') => k a w'
    | (Raised e, w') => (Raised e, w')
    | (Pending, w') => (Pending, w')
    end.

Notation "'let*' x ':=' m 'in' k" := (bind m (fun x => k))
  (at level 10, x name, m at level 100, k at level 200).

Definition time_sleep (ms : Z) : M unit :=
  fun w => (Returned tt, {| requests := requests w; sleeps := sleeps w ++ [ms] |}).

(** The keyword arguments of [retrying.retry] that bear on this program;
    [None] is an argument left out.  (The package also offers a stop on
    elapsed wall-clock time, which the program does not pass either.) *)
Record Retrying := {
  stop_max_attempt_number : option nat;
  wait_exponential_multiplier : option Z;
  wait_exponential_max : option Z
}.

Definition MAX_WAIT : Z := 1073741823.

(** With no stop argument the list of stop functions is empty and
    [any([])] is [False]. *)
Definition stop (r : Retrying) (attempt_number : nat) : bool :=
  match stop_max_attempt_number r with
  | Some n => n <=? attempt_number
  | None => false
  end.

Definition exponential_sleep (r : Retrying) (previous_attempt_number : nat) : Z :=
  let exp := (2 ^ Z.of_nat previous_attempt_number)%Z in
  let result := (default 1 (wait_exponential_multiplier r) * exp)%Z in
  let result :=
    if (default MAX_WAIT (wait_exponential_max r) <? result)%Z
    then default MAX_WAIT (wait_exponential_max r) else result in
  if (result <? 0)%Z then 0%Z else result.

(** The wait is the maximum over the configured wait functions, the
    constant 0 always being one of them. *)
Definition wait (r : Retrying) (attempt_number : nat) : Z :=
  match wait_exponential_multiplier r, wait_exponential_max r with
  | None, None => 0%Z
  | _, _ => Z.max 0 (exponential_sleep r attempt_number)
  end.

(** [Retrying.call]: the [while True] loop around one attempt [fn].  Every
    exception is retried (the default [retry_on_exception]), no result is. *)
Fixpoint call {A} (r : Retrying) (fn : M A) (fuel attempt_number : nat) : M A :=
  match fuel with
  | O => fun w => (Pending, w)
  | S fuel' => fun w =>
      match fn w with
      | (Returned a, w1) => (Returned a, w1)
      | (Pending, w1) => (Pending, w1)
      | (Raised e, w1) =>
          if stop r attempt_number then (Raised e, w1)
          else
            (let* _ := time_sleep (wait r attempt_number) in
             call r fn fuel' (S attempt_number)) w1
      end
  end.

End Net.

(** ** The scraper *)
Module Scraper.
Import PyStr Soup Net.

(** A Python [dict] with string keys and values. *)
Abbreviation dict := (gmap string string).

Definition BASE_URL : string := "https://quotes.toscrape.com".

(** The selectors that occur in the source. *)
Definition div_quote : selector := Sel (ByClass "div" "quote").
Definition span_text : selector := Sel (ByClass "span" "text").
Definition small_author : selector := Sel (ByClass "small" "author").
Definition span_a : selector := Desc (ByName "span") (ByName "a").
Definition p_born : selector := Sel (ByContains "p" "Born:").
Definition div_author_description : selector :=
  Sel (ByClass "div" "author-description").

(** The arguments of the [@retry] decorator on [make_request]. *)
Definition retry_args : Retrying :=
  {| stop_max_attempt_number := None;
     wait_exponential_multiplier := Some 2000%Z;
     wait_exponential_max := Some 10000%Z |}.

Definition get_text (element : element) (sel : selector) : string :=
  match select_one element sel with
  | Some text_element => text text_element
  | None => ""
  end.

Definition get_href (element : element) (sel : selector) : string :=
  match select_one element sel with
  | Some anchor_element => get anchor_element "href" ""
  | None => ""
  end.

(** The body of [scrape_author_info] after the fetch (the dict it builds
    from the parsed page).  [len(parts) > 1] followed by [parts[0]] and
    [parts[1]] is written as a match on the first two pieces. *)
Definition parse_author_info (soup : element) : dict :=
  let author_info : dict := ∅ in
  let author_info :=
    match select_one soup p_born with
    | Some born_info =>
        match split ": " (text born_info) with
        | _ :: born_info_text :: _ =>
            match split " in " born_info_text with
            | date :: place :: _ =>
                <["birthplace" := strip place]>
                  (<["birthdate" := strip date]> author_info)
            | _ => <["birthdate" := strip born_info_text]> author_info
            end
        | _ => author_info
        end
    | None => author_info
    end in
  let description := select_one soup div_author_description in
  <["description" := match description with
                     | Some d => text d
                     | None => ""
                     end]> author_info.

(** The dict literal built for each quote. *)
Definition quote_info (quote_text author bio_href : string) (author_info : dict)
  : dict :=
  {[ "Quote" := quote_text;
     "Author" := author;
     "Bio Href" := bio_href;
     "Birthdate" := default "" (author_info !! "birthdate");
     "Birthplace" := default "" (author_info !! "birthplace");
     "Description" := default "" (author_info !! "description") ]}.

Section Crawl.

(** The remote site: the answer to the [n]-th GET of the run, [None] when
    the GET or [raise_for_status] raises.  A response is identified with
    the document its body parses to. *)
Variable server : nat -> string -> option Tag.

(** [urllib.parse.urljoin] on two non-empty arguments (reference
    resolution), left open. *)
Variable resolve : string -> string -> string.

Definition urljoin (base url : string) : string :=
  if bool_decide (base = "") then url
  else if bool_decide (url = "") then base
  else resolve base url.

(** One attempt: the undecorated body of [make_request]. *)
Definition session_get (url : string) : M Tag :=
  fun w =>
    let w' := {| requests := requests w ++ [url]; sleeps := sleeps w |} in
    match server (length (requests w)) url with
    | Some response => (Returned response, w')
    | None => (Raised RequestException, w')
    end.

(** [make_request] under its decorator; [fuel] is the number of attempts
    of this call that are followed before the outcome is [Pending]. *)
Definition make_request (fuel : nat) (url : string) : M Tag :=
  call retry_args (session_get url) fuel 1.

Definition scrape_author_info (fuel : nat) (url : string) : M dict :=
  let* response := make_request fuel url in
  let soup := BeautifulSoup response in
  ret (parse_author_info soup).

(** The inner loop of [scrape_quotes], over the quote elements of a page. *)
Fixpoint for_elements (fuel : nat) (quote_elements : list element)
    (quotes : list dict) : M (list dict) :=
  match quote_elements with
  | [] => ret quotes
  | element :: rest =>
      let quote_text := get_text element span_text in
      let author := get_text element small_author in
      let bio_href := get_href element span_a in
      let author_info_url := urljoin BASE_URL bio_href in
      let* author_info := scrape_author_info fuel author_info_url in
      for_elements fuel rest
        (quotes ++ [quote_info quote_text author bio_href author_info])
  end.

Definition page_url (url : string) (page : Z) : string :=
  url +:+ "/page/" +:+ pretty page +:+ "/".

(** The outer loop, over the page numbers. *)
Fixpoint for_pages (fuel : nat) (url : string) (pages : list Z)
    (quotes : list dict) : M (list dict) :=
  match pages with
  | [] => ret quotes
  | page :: rest =>
      let* response := make_request fuel (page_url url page) in
      let soup := BeautifulSoup response in
      let quote_elements := select soup div_quote in
      let* quotes := for_elements fuel quote_elements quotes in
      for_pages fuel url rest quotes
  end.

(** [range(lo, hi)]. *)
Definition range (lo hi : Z) : list Z := seqZ lo (hi - lo).

Definition scrape_quotes (fuel : nat) (url : string) (num_pages : Z)
  : M (list dict) :=
  for_pages fuel url (range 1 (num_pages + 1)) [].

End Crawl.

End Scraper.

(** ** Reference behaviour

    What the crawl is expected to compute on a site whose pages do not
    change during the run, stated without the network. *)
Module Reference.
Import PyStr Soup Net Scraper.

(** Every GET is answered within [k] consecutive attempts. *)
Definition live (server : nat -> string -> option Tag) (k : nat) : Prop :=
  forall n url, exists j, j < k /\ is_Some (server (n + j) url).

(** Whenever the server answers, it answers with the site's document. *)
Definition serves (server : nat -> string -> option Tag)
    (site : string -> Tag) : Prop :=
  forall n url doc, server n url = Some doc -> doc = site url.

(** The entry blocks of a list page, in document order. *)
Definition entries (site : string -> Tag) (url : string) (page : Z)
  : list element :=
  select (BeautifulSoup (site (page_url url page))) div_quote.

(** The record of one entry block. *)
Definition record_of (site : string -> Tag)
    (resolve : string -> string -> string) (element : element) : dict :=
  let bio_href := get_href element span_a in
  quote_info (get_text element span_text) (get_text element small_author)
    bio_href
    (parse_author_info
       (BeautifulSoup (site (urljoin resolve BASE_URL bio_href)))).

Definition page_records (site : string -> Tag)
    (resolve : string -> string -> string) (url : string) (page : Z)
  : list dict :=
  record_of site resolve <$> entries site url page.

(** Page 1 first, then page 2, ...; within a page, document order. *)
Definition crawl_records (site : string -> Tag)
    (resolve : string -> string -> string) (url : string) (num_pages : Z)
  : list dict :=
  concat (page_records site resolve url <$> seqZ 1 num_pages).

(** Column [key] of the [i]-th record of a finished crawl. *)
Definition field (o : outcome (list dict)) (i : nat) (key : string)
  : option string :=
  match o with
  | Returned rs => rs !! i ≫= (.!! key)
  | _ => None
  end.

(** The wait, in milliseconds, after the [k]-th failed attempt. *)
Definition backoff (k : nat) : Z := Z.min (2000 * 2 ^ Z.of_nat k) 10000.

(** The columns of a record. *)
Definition record_keys : gset string :=
  {[ "Quote"; "Author"; "Bio Href"; "Birthdate"; "Birthplace"; "Description" ]}.

Fixpoint all_space (s : string) : Prop :=
  match s with
  | EmptyString => True
  | String c s' => isspace c = true /\ all_space s'
  end.

End Reference.

(** ** Sample documents *)
Module Samples.
Import Soup Net Scraper.

Definition document (contents : list Tag) : Tag :=
  Element "[document]" [] ∅ contents.

Definition quote_text (t : string) : Tag :=
  Element "span" ["text"] ∅ [NavigableString t].

Definition byline (author href : string) : Tag :=
  Element "span" [] ∅
    [NavigableString "by ";
     Element "small" ["author"] ∅ [NavigableString author];
     Element "a" [] {[ "href" := href ]} [NavigableString "(about)"]].

(** A complete entry block (its link may be empty), one without author
    and link, and one with neither text nor link. *)
Definition entry (t author href : string) : Tag :=
  Element "div" ["quote"] ∅ [quote_text t; byline author href].

Definition entry_text_only (t : string) : Tag :=
  Element "div" ["quote"] ∅ [quote_text t].

Definition entry_author_only (author : string) : Tag :=
  Element "div" ["quote"] ∅
    [Element "span" [] ∅
       [Element "small" ["author"] ∅ [NavigableString author]]].

(** A detail page whose paragraph reads [born] and whose description is
    [description]. *)
Definition born_paragraph (born : string) : Tag :=
  Element "p" [] ∅ [NavigableString born].

Definition about (born description : string) : Tag :=
  document
    [born_paragraph born;
     Element "div" ["author-description"] ∅ [NavigableString description]].

(** A three-page site. *)
Definition site (url : string) : Tag :=
  if bool_decide (url = "https://quotes.toscrape.com/page/1/") then
    document [entry "q1" "Ann" "/author/Ann"; entry_text_only "q2"]
  else if bool_decide (url = "https://quotes.toscrape.com/page/2/") then
    document [entry "q3" "Bob" "/author/Bob"]
  else if bool_decide (url = "https://quotes.toscrape.com/page/3/") then
    document [entry_author_only "Cy"; entry "q5" "Dee" ""]
  else if bool_decide (url = "https://quotes.toscrape.com/author/Ann") then
    about "Born: September 16, 1977 in New York City" " Writer. "
  else if bool_decide (url = "https://quotes.toscrape.com/author/Bob") then
    about "Born: 1977" ""
  else document [].

(** Reference resolution for root-relative links against [BASE_URL]. *)
Definition resolve_rooted (base url : string) : string := base +:+ url.

(** Servers: always up; failing every other GET; never answering page 2;
    never answering at all; failing the first five GETs. *)
Definition up (n : nat) (url : string) : option Tag := Some (site url).

Definition flaky (n : nat) (url : string) : option Tag :=
  if Nat.even n then None else Some (site url).

Definition page2_down (n : nat) (url : string) : option Tag :=
  if bool_decide (url = "https://quotes.toscrape.com/page/2/") then None
  else Some (site url).

Definition down (n : nat) (url : string) : option Tag := None.

Definition up_after_five (n : nat) (url : string) : option Tag :=
  if n <? 5 then None else Some (site url).

End Samples.

(** ** The csv module and files

    [write_quotes_to_csv] of the scraper writes with [csv.DictWriter] in
    the default dialect; [load_quotes_from_csv] of the quiz reads with
    [csv.reader].  Both are rendered for the arguments the two programs
    pass.  A file holds bytes; a byte is a character below 256. *)
Module Csv.
Import PyStr.

Definition COMMA : ascii := Eval cbv in ascii_of_nat 44.
Definition DQUOTE : ascii := Eval cbv in ascii_of_nat 34.
Definition SPACE : ascii := Eval cbv in ascii_of_nat 32.
Definition CR : ascii := Eval cbv in ascii_of_nat 13.
Definition LF : ascii := Eval cbv in ascii_of_nat 10.

Inductive exn :=
| ValueError | CsvError | StopIteration | IndexError
| FileNotFoundError | EOFError.

(** *** Writing *)

(** The line terminator of the default dialect. *)
Definition lineterminator : string := String CR (String LF "").

(** Under [QUOTE_MINIMAL] a field is quoted when it holds the delimiter,
    the quote character or a character of the line terminator. *)
Definition special (c : ascii) : bool :=
  bool_decide (c = COMMA) || bool_decide (c = DQUOTE)
  || bool_decide (c = CR) || bool_decide (c = LF).

Fixpoint has_special (s : string) : bool :=
  match s with
  | EmptyString => false
  | String c s' => special c || has_special s'
  end.

(** [doublequote]: a quote character inside a field is written twice. *)
Fixpoint double_quotes (s : string) : string :=
  match s with
  | EmptyString => ""
  | String c s' =>
      if bool_decide (c = DQUOTE)
      then String DQUOTE (String DQUOTE (double_quotes s'))
      else String c (double_quotes s')
  end.

Definition join_append (field : string) : string :=
  if has_special field
  then String DQUOTE (double_quotes field +:+ String DQUOTE "")
  else field.

Fixpoint join (fields : list string) : string :=
  match fields with
  | [] => ""
  | field :: rest =>
      join_append field +:+
      match rest with
      | [] => ""
      | _ => String COMMA (join rest)
      end
  end.

(** [writer.writerow]; a record that would be empty (one empty field) is
    written as a pair of quotes. *)
Definition writerow (fields : list string) : string :=
  match fields with
  | [EmptyString] => String DQUOTE (String DQUOTE lineterminator)
  | _ => join fields +:+ lineterminator
  end.

(** [DictWriter._dict_to_list] with [extrasaction='raise'] and
    [restval='']. *)
Definition dict_to_list (fieldnames : list string) (rowdict : gmap string string)
  : option (list string) :=
  if decide (dom rowdict ⊆ list_to_set fieldnames)
  then Some ((fun key => default "" (rowdict !! key)) <$> fieldnames)
  else None.

(** [DictWriter.writerows]: the rows are converted and written one by
    one, so the rows before an offending dict are in the file. *)
Fixpoint writerows (fieldnames : list string)
    (rowdicts : list (gmap string string)) (file : string)
  : string * option exn :=
  match rowdicts with
  | [] => (file, None)
  | rowdict :: rest =>
      match dict_to_list fieldnames rowdict with
      | None => (file, Some ValueError)
      | Some row => writerows fieldnames rest (file +:+ writerow row)
      end
  end.

Definition writeheader (fieldnames : list string) (file : string) : string :=
  file +:+ writerow fieldnames.

(** *** Encodings *)

(** [str.encode('utf-8')] on characters below 256. *)
Definition utf8_char (c : ascii) : string :=
  let n := nat_of_ascii c in
  if n <? 128 then String c ""
  else String (ascii_of_nat (192 + n / 64))
         (String (ascii_of_nat (128 + n mod 64)) "").

Fixpoint encode_utf8 (s : string) : string :=
  match s with
  | EmptyString => ""
  | String c s' => utf8_char c +:+ encode_utf8 s'
  end.

(** [bytes.decode('latin1')]: every byte is the character of its value. *)
Definition decode_latin1 (bytes : string) : string := bytes.

(** *** Reading *)

(** The states of the reader that can be reached without an escape
    character. *)
Inductive parser_state :=
| START_RECORD | START_FIELD | IN_FIELD
| IN_QUOTED_FIELD | QUOTE_IN_QUOTED_FIELD | EAT_CRNL.

Global Instance parser_state_eq_dec : EqDecision parser_state.
Proof. solve_decision. Defined.

Record reader := Reader {
  state : parser_state;
  field : string;          (* the field being collected *)
  fields : list string     (* the fields of the record so far *)
}.

(** What the reader is fed: a character of a line, or the end of one. *)
Inductive input := Ch (c : ascii) | EOL.

(** [csv.field_size_limit()]. *)
Definition field_limit : N := 131072.

Definition parse_reset : reader :=
  {| state := START_RECORD; field := ""; fields := [] |}.

Definition set_state (r : reader) (s : parser_state) : reader :=
  {| state := s; field := field r; fields := fields r |}.

Definition parse_add_char (r : reader) (c : ascii) : option reader :=
  if (field_limit <=? N.of_nat (String.length (field r)))%N then None
  else Some {| state := state r;
               field := field r +:+ String c "";
               fields := fields r |}.

Definition parse_save_field (r : reader) : reader :=
  {| state := state r; field := ""; fields := fields r ++ [field r] |}.

Definition is_newline (c : ascii) : bool :=
  bool_decide (c = LF) || bool_decide (c = CR).

(** The case [START_FIELD] of [parse_process_char], into which the case
    [START_RECORD] falls through; [skipinitialspace] is set. *)
Definition start_field (r : reader) (c : input) : option reader :=
  match c with
  | EOL => Some (set_state (parse_save_field r) START_RECORD)
  | Ch c =>
      if is_newline c then Some (set_state (parse_save_field r) EAT_CRNL)
      else if bool_decide (c = DQUOTE) then Some (set_state r IN_QUOTED_FIELD)
      else if bool_decide (c = SPACE) then Some r
      else if bool_decide (c = COMMA) then Some (parse_save_field r)
      else (fun r' => set_state r' IN_FIELD) <$> parse_add_char r c
  end.

(** [parse_process_char]; [None] is [csv.Error]. *)
Definition parse_process_char (r : reader) (c : input) : option reader :=
  match state r with
  | START_RECORD =>
      match c with
      | EOL => Some r
      | Ch x =>
          if is_newline x then Some (set_state r EAT_CRNL)
          else start_field (set_state r START_FIELD) c
      end
  | START_FIELD => start_field r c
  | IN_FIELD =>
      match c with
      | EOL => Some (set_state (parse_save_field r) START_RECORD)
      | Ch x =>
          if is_newline x then Some (set_state (parse_save_field r) EAT_CRNL)
          else if bool_decide (x = COMMA)
               then Some (set_state (parse_save_field r) START_FIELD)
          else parse_add_char r x
      end
  | IN_QUOTED_FIELD =>
      match c with
      | EOL => Some r
      | Ch x =>
          if bool_decide (x = DQUOTE) then Some (set_state r QUOTE_IN_QUOTED_FIELD)
          else parse_add_char r x
      end
  | QUOTE_IN_QUOTED_FIELD =>
      match c with
      | EOL => Some (set_state (parse_save_field r) START_RECORD)
      | Ch x =>
          if bool_decide (x = DQUOTE)
          then (fun r' => set_state r' IN_QUOTED_FIELD) <$> parse_add_char r x
          else if bool_decide (x = COMMA)
               then Some (set_state (parse_save_field r) START_FIELD)
          else if is_newline x
               then Some (set_state (parse_save_field r) EAT_CRNL)
          else (fun r' => set_state r' IN_FIELD) <$> parse_add_char r x
      end
  | EAT_CRNL =>
      match c with
      | EOL => Some (set_state r START_RECORD)
      | Ch x => if is_newline x then Some r else None
      end
  end.

(** A file opened with [newline=''] yields its lines with their endings:
    a line ends after a line feed, after a carriage return that no line
    feed follows, and at the end of the file.  [c] is the character just
    read and [rest] what follows it. *)
Definition ends_line (c : ascii) (rest : string) : bool :=
  bool_decide (c = LF)
  || (bool_decide (c = CR) && negb (String.prefix (String LF "") rest))
  || bool_decide (rest = "").

(** [for row in reader: acc = body(acc, row)] over the text of a file: the
    reader is fed character by character and, at the end of each line,
    [EOL]; a record is handed to the loop body when a line ends in state
    [START_RECORD].  At the end of the file an unfinished record is
    handed over as it is. *)
Fixpoint for_rows {A} (body : A -> list string -> exn + A)
    (r : reader) (acc : A) (text : string) : exn + A :=
  match text with
  | EmptyString =>
      if bool_decide (field r <> "") || bool_decide (state r = IN_QUOTED_FIELD)
      then body acc (fields (parse_save_field r))
      else inr acc
  | String c rest =>
      match parse_process_char r (Ch c) with
      | None => inl CsvError
      | Some r1 =>
          if ends_line c rest then
            match parse_process_char r1 EOL with
            | None => inl CsvError
            | Some r2 =>
                if bool_decide (state r2 = START_RECORD) then
                  match body acc (fields r2) with
                  | inl e => inl e
                  | inr acc' => for_rows body parse_reset acc' rest
                  end
                else for_rows body r2 acc rest
            end
          else for_rows body r1 acc rest
      end
  end.

End Csv.

(** ** Writing the records (webscraper_demo.py)

    The file system is a map from file names to contents; opening a file
    for writing creates or truncates it. *)
Module Sink.
Import Csv.

Definition fieldnames : list string :=
  ["Quote"; "Author"; "Bio Href"; "Birthdate"; "Birthplace"; "Description"].

(** The file holds what was written when the [with] block is left, also
    when it is left by an exception. *)
Definition write_quotes_to_csv (quotes : list (gmap string string))
    (filename : string) (fs : gmap string string)
  : gmap string string * option exn :=
  let file := writeheader fieldnames "" in
  let '(file, raised) := writerows fieldnames quotes file in
  (<[filename := encode_utf8 file]> fs, raised).

End Sink.

(** ** The quiz (game_demo1.py) *)
Module Game.
Import PyStr Csv.

Record Quote := {
  text : string;
  author : string;
  bio : string;
  birthdate : string;
  birthplace : string;
  description : string
}.

Definition MAX_GUESSES : nat := 4.

(** [Quote(text=row[0], ..., description=row[5])]. *)
Definition quote_of_row (row : list string) : exn + Quote :=
  match row with
  | r0 :: r1 :: r2 :: r3 :: r4 :: r5 :: _ =>
      inr {| text := r0; author := r1; bio := r2;
             birthdate := r3; birthplace := r4; description := r5 |}
  | _ => inl IndexError
  end.

(** The body of the loop over the reader; the accumulator is [None]
    until [next(reader)] has taken the header row. *)
Definition load_row (acc : option (list Quote)) (row : list string)
  : exn + option (list Quote) :=
  match acc with
  | None => inr (Some [])
  | Some quotes =>
      match quote_of_row row with
      | inl e => inl e
      | inr quote => inr (Some (quotes ++ [quote]))
      end
  end.

Definition load_quotes_from_csv (filename : string) (fs : gmap string string)
  : exn + list Quote :=
  match fs !! filename with
  | None => inl FileNotFoundError
  | Some bytes =>
      match for_rows load_row parse_reset None (decode_latin1 bytes) with
      | inl e => inl e
      | inr None => inl StopIteration
      | inr (Some quotes) => inr quotes
      end
  end.

(** [str.lower] on characters below 256. *)
Definition lower_char (c : ascii) : ascii :=
  let n := nat_of_ascii c in
  if ((65 <=? n) && (n <=? 90))
     || ((192 <=? n) && (n <=? 222) && negb (n =? 215))
  then ascii_of_nat (n + 32) else c.

Fixpoint lower (s : string) : string :=
  match s with
  | EmptyString => ""
  | String c s' => String (lower_char c) (lower s')
  end.

(** [str.split()]: the maximal runs of non-whitespace; [cur] is the run
    being collected. *)
Fixpoint words_from (cur s : string) : list string :=
  match s with
  | EmptyString => match cur with EmptyString => [] | _ => [cur] end
  | String c s' =>
      if isspace c
      then match cur with
           | EmptyString => words_from "" s'
           | _ => cur :: words_from "" s'
           end
      else words_from (cur +:+ String c "") s'
  end.

Definition words (s : string) : list string := words_from "" s.

(** [s[0]] as a string of length one. *)
Definition first_letter (s : string) : option string :=
  match s with
  | EmptyString => None
  | String c _ => Some (String c "")
  end.

(** The console: the lines still to be typed, what was printed, and the
    number of random draws made. *)
Record console := Console {
  stdin : list string;
  stdout : list string;
  draws : nat
}.

Inductive result (A : Type) : Type :=
| Done (a : A)
| Raise (e : exn)
| OutOfFuel.
Arguments Done {A} a.
Arguments Raise {A} e.
Arguments OutOfFuel {A}.

Definition G (A : Type) : Type := console -> result A * console.

Definition ret {A} (a : A) : G A := fun c => (Done a, c).

Definition raise {A} (e : exn) : G A := fun c => (Raise e, c).

Definition bind {A B} (m : G A) (k : A -> G B) : G B :=
  fun c =>
    match m c with
    | (Done a, c') => k a c'
    | (Raise e, c') => (Raise e, c')
    | (OutOfFuel, c') => (OutOfFuel, c')
    end.

Notation "'let*' x ':=' m 'in' k" := (bind m (fun x => k))
  (at level 10, x name, m at level 100, k at level 200).

Definition print (line : string) : G unit :=
  fun c => (Done tt, {| stdin := stdin c;
                        stdout := stdout c ++ [line];
                        draws := draws c |}).

(** [input(prompt)]; at the end of the input it raises [EOFError]. *)
Definition input (prompt : string) : G string :=
  fun c =>
    let out := match prompt with
               | EmptyString => stdout c
               | _ => stdout c ++ [prompt]
               end in
    match stdin c with
    | [] => (Raise EOFError, {| stdin := []; stdout := out; draws := draws c |})
    | line :: rest =>
        (Done line, {| stdin := rest; stdout := out; draws := draws c |})
    end.

Section Play.

(** The index that the [n]-th call of [random.choice] draws, reduced
    modulo the length of the list. *)
Variable choice : nat -> nat.

Definition get_random_quote (quotes : list Quote) : G Quote :=
  fun c =>
    match quotes !! (choice (draws c) mod length quotes) with
    | None => (Raise IndexError, c)
    | Some quote =>
        (Done quote, {| stdin := stdin c; stdout := stdout c;
                        draws := S (draws c) |})
    end.

(** The three hints, by the number of hints already given; the second
    indexes the first and last word of the author's name. *)
Definition hint (quote : Quote) (hints_given : nat) : G unit :=
  match hints_given with
  | 0 => print ("Hint: The author was born in " +:+ birthplace quote
                  +:+ " " +:+ birthdate quote +:+ ".")
  | 1 =>
      match head (words (author quote)) ≫= first_letter,
            last (words (author quote)) ≫= first_letter with
      | Some a, Some b =>
          print ("Hint: The author's initials are " +:+ a +:+ "." +:+ b +:+ ".")
      | _, _ => raise IndexError
      end
  | 2 => print ("Hint: The author is known for "
                  +:+ default "" (head (split "." (description quote))) +:+ ".")
  | _ => ret tt
  end.

(** The [while guesses_remaining > 0] loop; it returns the value of
    [guesses_remaining] on leaving the loop. *)
Fixpoint guessing (quote : Quote) (guesses_remaining hints_given : nat) : G nat :=
  match guesses_remaining with
  | 0 => ret 0
  | S remaining =>
      let* line := input "" in
      let guess := strip line in
      if bool_decide (lower guess = lower (author quote)) then
        let* _ := print "Congratulations! You won!" in
        ret guesses_remaining
      else
        let* _ := print ("Incorrect. You have " +:+ pretty remaining
                           +:+ " guesses remaining.") in
        let* _ := hint quote hints_given in
        guessing quote remaining (S hints_given)
  end.

(** [play_game]; [fuel] bounds the depth of the play-again recursion. *)
Fixpoint play_game (fuel : nat) (quotes : list Quote) : G unit :=
  match fuel with
  | 0 => fun c => (OutOfFuel, c)
  | S fuel' =>
      let* quote := get_random_quote quotes in
      let* _ := print "Welcome to the guessing game!" in
      let* _ := print ("Here's your quote: " +:+ text quote) in
      let* _ := print ("Who said that? (You have " +:+ pretty MAX_GUESSES
                         +:+ " guesses remaining)") in
      let* guesses_remaining := guessing quote MAX_GUESSES 0 in
      let* _ := if bool_decide (guesses_remaining = 0)
                then print ("Game over! The correct answer was "
                              +:+ author quote +:+ ".")
                else ret tt in
      let* play_again := input "Would you like to play again? (y/n): " in
      if bool_decide (lower play_again = "y") then play_game fuel' quotes
      else print "Thanks for playing!"
  end.

(** The script: load [quotes.csv], then play. *)
Definition main (fuel : nat) (fs : gmap string string) : G unit :=
  match load_quotes_from_csv "quotes.csv" fs with
  | inl e => raise e
  | inr quotes => play_game fuel quotes
  end.

End Play.

End Game.

(** ** From the scraper's file to the quiz

    What the quiz receives for what the scraper wrote. *)
Module Exchange.
Import Csv Game.

(** The blanks that the reader passes over at the start of a field. *)
Fixpoint skip_spaces (s : string) : string :=
  match s with
  | EmptyString => ""
  | String c s' => if bool_decide (c = SPACE) then skip_spaces s' else s
  end.

(** A field after writing and reading: unchanged when the writer quoted
    it, without its leading blanks otherwise. *)
Definition read_back (v : string) : string :=
  if has_special v then v else skip_spaces v.

(** The field stays within the reader's field size limit. *)
Definition fits (v : string) : Prop :=
  (N.of_nat (String.length (read_back v)) <= field_limit)%N.

(** The reader at the end of a field whose content is [w]. *)
Definition at_field_end (r : reader) (w : string) (fs : list string) : Prop :=
  fields r = fs /\
  ((state r = IN_FIELD /\ field r = w)
   \/ (state r = START_FIELD /\ field r = "" /\ w = "")
   \/ (state r = QUOTE_IN_QUOTED_FIELD /\ field r = w)).

(** The text of a csv file with the given records. *)
Definition csv_text (rows : list (list string)) : string :=
  foldr (fun row text => writerow row +:+ text) "" rows.

(** The loop of [load_quotes_from_csv] over the records after the
    header: the rows are converted in order, up to the first that cannot
    be. *)
Fixpoint quotes_from (quotes : list Quote) (rows : list (list string))
  : exn + list Quote :=
  match rows with
  | [] => inr quotes
  | row :: rest =>
      match quote_of_row row with
      | inl e => inl e
      | inr quote => quotes_from (quotes ++ [quote]) rest
      end
  end.

(** A value after writing as UTF-8 and reading as Latin-1. *)
Definition received (v : string) : string := read_back (encode_utf8 v).

Definition quote_of_record (record : gmap string string) : Quote :=
  {| text := received (default "" (record !! "Quote"));
     author := received (default "" (record !! "Author"));
     bio := received (default "" (record !! "Bio Href"));
     birthdate := received (default "" (record !! "Birthdate"));
     birthplace := received (default "" (record !! "Birthplace"));
     description := received (default "" (record !! "Description")) |}.

(** The same record, field by field. *)
Definition quote_as_written (record : gmap string string) : Quote :=
  {| text := default "" (record !! "Quote");
     author := default "" (record !! "Author");
     bio := default "" (record !! "Bio Href");
     birthdate := default "" (record !! "Birthdate");
     birthplace := default "" (record !! "Birthplace");
     description := default "" (record !! "Description") |}.

(** Characters below 128. *)
Fixpoint is_ascii (s : string) : bool :=
  match s with
  | EmptyString => true
  | String c s' => (nat_of_ascii c <? 128) && is_ascii s'
  end.

(** A value that keeps its characters and its leading blanks. *)
Definition survives (v : string) : Prop :=
  is_ascii v = true /\
  (has_special v = true \/ String.prefix " " v = false).

(** A value that the exchange leaves as it is. *)
Definition plain (v : string) : Prop :=
  is_ascii v = true /\
  (has_special v = true \/ String.prefix " " v = false) /\
  (N.of_nat (String.length v) <= field_limit)%N.

Definition values (record : gmap string string) : list string :=
  (fun key => default "" (record !! key)) <$> Sink.fieldnames.

(** The GETs of a crawl during which no GET fails: for each page, the
    page itself, then the detail page of each of its entries. *)
Definition crawl_requests (site : string -> Soup.Tag)
    (resolve : string -> string -> string) (url : string) (num_pages : Z)
  : list string :=
  concat
    ((fun page =>
        Scraper.page_url url page ::
        ((fun element =>
            Scraper.urljoin resolve Scraper.BASE_URL
              (Scraper.get_href element Scraper.span_a))
           <$> Reference.entries site url page))
       <$> seqZ 1 num_pages).

(** The log [w'] continues the log [w]: GETs and sleeps were only added,
    each added sleep lasts between 4 and 10 seconds, and there are no
    more added sleeps than added GETs. *)
Definition continues (w w' : Net.world) : Prop :=
  exists gets naps,
    Net.requests w' = Net.requests w ++ gets /\
    Net.sleeps w' = Net.sleeps w ++ naps /\
    Forall (fun ms => 4000 <= ms <= 10000)%Z naps /\
    length naps <= length gets.

(** The two letters of the second hint. *)
Definition initials (name : string) : option (string * string) :=
  match head (words name) ≫= first_letter,
        last (words name) ≫= first_letter with
  | Some a, Some b => Some (a, b)
  | _, _ => None
  end.

(** A guess that does not name the author. *)
Definition wrong (quote : Quote) (guess : string) : Prop :=
  lower (PyStr.strip guess) <> lower (author quote).

End Exchange.

(** ** Sample records and quotes *)
Module Exhibits.
Import Csv Game.

Definition record_ann : gmap string string :=
  {[ "Quote" := "To be, or not";
     "Author" := "Ann Lee";
     "Bio Href" := "/author/Ann";
     "Birthdate" := "May 1, 1900";
     "Birthplace" := "in Paris";
     "Description" := " Writer. " ]}.

(** A record with a key that is no column, and one with two columns only. *)
Definition record_tagged : gmap string string :=
  <["Tags" := "life"]> record_ann.

Definition record_bare : gmap string string :=
  {[ "Quote" := "Plain words"; "Author" := "Bob" ]}.

(** A record whose quote has 131073 characters. *)
Definition long_value : string :=
  String.string_of_list_ascii (replicate (N.to_nat 131073) "a"%char).

Definition record_long : gmap string string :=
  {[ "Quote" := long_value; "Author" := "Cy" ]}.

Definition quote_ann : Quote :=
  {| text := "To be, or not"; author := "Ann Lee"; bio := "/author/Ann";
     birthdate := "May 1, 1900"; birthplace := "in Paris";
     description := "Writing. And more" |}.

(** A quote as the scraper records an entry without author element. *)
Definition quote_anonymous : Quote :=
  {| text := "q2"; author := ""; bio := "";
     birthdate := ""; birthplace := ""; description := "" |}.

(** Always the first quote. *)
Definition first_choice (n : nat) : nat := 0.

Definition typed (lines : list string) : console :=
  {| stdin := lines; stdout := []; draws := 0 |}.

End Exhibits.
(** ** Facts about the string methods *)
Module PyStrFacts.
Import PyStr.

Lemma append_cons c a b : String c a +:+ b = String c (a +:+ b).
Proof. reflexivity. Qed.

Lemma append_nil_r s : s +:+ "" = s.
Proof. induction s as [|c s IH]; [reflexivity|]. rewrite append_cons; by f_equal. Qed.

Lemma append_assoc a b c : (a +:+ b) +:+ c = a +:+ b +:+ c.
Proof. induction a as [|x a IH]; [reflexivity|]. rewrite !append_cons; by f_equal. Qed.

Lemma startswith_app sep b : startswith sep (sep +:+ b) = true.
Proof.
  unfold startswith. induction sep as [|c sep IH]; [by destruct b|].
  rewrite append_cons. simpl. by destruct (ascii_dec c c).
Qed.

(** Passing over a matched separator. *)
Lemma split_from_skip sep x cur b :
  split_from sep (String.length x) cur (x +:+ b) = split_from sep 0 cur b.
Proof. induction x as [|c x IH]; [reflexivity|]. rewrite append_cons. apply IH. Qed.

(** Without an occurrence of the separator the string is the only piece. *)
Lemma split_from_absent sep cur s :
  find sep s = None -> split_from sep 0 cur s = [cur +:+ s].
Proof.
  revert cur. induction s as [|c s IH]; intros cur H.
  - by rewrite append_nil_r.
  - cbn [find split_from] in *.
    destruct (startswith sep (String c s)); [done|].
    destruct (find sep s); [done|].
    rewrite IH by done. by rewrite append_assoc.
Qed.

Lemma split_absent sep s : find sep s = None -> split sep s = [s].
Proof. apply split_from_absent. Qed.

(** At the first occurrence the piece before it is cut off and the scan
    resumes after the separator. *)
Lemma split_from_first sep cur a b :
  sep <> "" ->
  find sep (a +:+ sep +:+ b) = Some (String.length a) ->
  split_from sep 0 cur (a +:+ sep +:+ b) = (cur +:+ a) :: split sep b.
Proof.
  intros Hsep. revert cur. induction a as [|c a IH]; intros cur H.
  - rewrite append_nil_r. destruct sep as [|c sep]; [done|].
    change ("" +:+ String c sep +:+ b) with (String c (sep +:+ b)).
    cbn [split_from].
    change (String c (sep +:+ b)) with (String c sep +:+ b).
    rewrite startswith_app.
    replace (String.length (String c sep) - 1) with (String.length sep)
      by (cbn [String.length]; lia).
    f_equal. apply split_from_skip.
  - rewrite append_cons in *. cbn [find] in H. cbn [split_from].
    destruct (startswith sep (String c (a +:+ sep +:+ b))); [done|].
    destruct (find sep (a +:+ sep +:+ b)) as [n|] eqn:E; [|done].
    simpl in H. injection H as ->.
    rewrite IH by done. by rewrite append_assoc.
Qed.

Lemma split_first sep a b :
  sep <> "" ->
  find sep (a +:+ sep +:+ b) = Some (String.length a) ->
  split sep (a +:+ sep +:+ b) = a :: split sep b.
Proof. intros. unfold split at 1. by rewrite split_from_first. Qed.

Lemma split_nonempty sep skip cur s : split_from sep skip cur s <> [].
Proof.
  revert skip cur. induction s as [|c s IH]; intros skip cur; [done|].
  cbn [split_from]. destruct skip; [|apply IH].
  destruct (startswith sep (String c s)); [done|apply IH].
Qed.

(** [strip] leaves no whitespace at either end. *)
Lemma lstrip_first s c : first_char (lstrip s) = Some c -> isspace c = false.
Proof.
  induction s as [|x s IH]; [done|]. simpl.
  destruct (isspace x) eqn:E; [done|]. simpl. by intros [= <-].
Qed.

Lemma rstrip_last s c : last_char (rstrip s) = Some c -> isspace c = false.
Proof.
  induction s as [|x s IH]; [done|]. simpl.
  destruct (rstrip s) as [|y r] eqn:E.
  - destruct (isspace x) eqn:Ex; [done|]. simpl. by intros [= <-].
  - done.
Qed.

Lemma rstrip_first s c : first_char (rstrip s) = Some c -> first_char s = Some c.
Proof.
  destruct s as [|x s]; [done|]. simpl.
  destruct (rstrip s); [destruct (isspace x)|]; done.
Qed.

Lemma strip_space_free_ends s : space_free_ends (strip s).
Proof.
  split; intros c H.
  - apply rstrip_first in H. by apply lstrip_first in H.
  - by apply rstrip_last in H.
Qed.

(** [strip] removes whitespace only, and only at the ends. *)
Lemma lstrip_spec s : exists l, s = l +:+ lstrip s /\ Reference.all_space l.
Proof.
  induction s as [|c s (l & IH & Hl)]; [by exists ""|]. cbn [lstrip].
  destruct (isspace c) eqn:E.
  - exists (String c l). rewrite append_cons, <- IH. done.
  - by exists "".
Qed.

Lemma rstrip_spec s : exists r, s = rstrip s +:+ r /\ Reference.all_space r.
Proof.
  induction s as [|c s (r & IH & Hr)]; [by exists ""|]. cbn [rstrip].
  destruct (rstrip s) as [|y t] eqn:E.
  - destruct (isspace c) eqn:Ec.
    + exists (String c r). split; [by rewrite IH|done].
    + exists r. split; [by rewrite IH at 1|done].
  - exists r. split; [by rewrite IH at 1|done].
Qed.

Lemma strip_spec s :
  exists l r, s = l +:+ strip s +:+ r /\
              Reference.all_space l /\ Reference.all_space r.
Proof.
  destruct (lstrip_spec s) as (l & Hs & Hl).
  destruct (rstrip_spec (lstrip s)) as (r & Hs' & Hr).
  exists l, r. split; [|done]. unfold strip. by rewrite <- Hs', <- Hs.
Qed.

End PyStrFacts.

(** ** Facts about the retry loop *)
Module NetFacts.
Import Soup Net Scraper Reference.

Lemma bind_returned {A B} (m : M A) (k : A -> M B) w a w1 :
  m w = (Returned a, w1) -> bind m k w = k a w1.
Proof. unfold bind. by intros ->. Qed.

Lemma bind_pending {A B} (m : M A) (k : A -> M B) w w1 :
  m w = (Pending, w1) -> bind m k w = (Pending, w1).
Proof. unfold bind. by intros ->. Qed.

(** A retry loop configured without a stop never gives up. *)
Lemma call_not_raised {A} (r : Retrying) (fn : M A) fuel a w e :
  stop_max_attempt_number r = None ->
  (call r fn fuel a w).1 <> Raised e.
Proof.
  intros Hstop. revert a w. induction fuel as [|fuel IH]; intros a w; [done|].
  cbn [call]. destruct (fn w) as [[x|e'|] w1]; [done| |done].
  unfold stop. rewrite Hstop. unfold bind, time_sleep. apply IH.
Qed.

Lemma wait_backoff k : wait retry_args k = backoff k.
Proof.
  unfold wait, exponential_sleep, backoff, retry_args, MAX_WAIT. cbn.
  assert (0 < 2 ^ Z.of_nat k)%Z by (apply Z.pow_pos_nonneg; lia).
  destruct (Z.ltb_spec 10000 (2000 * 2 ^ Z.of_nat k)) as [?|?];
    [|destruct (Z.ltb_spec (2000 * 2 ^ Z.of_nat k) 0)]; cbn; lia.
Qed.

Lemma backoff_double k : backoff (S k) = Z.min (2 * backoff k) 10000.
Proof.
  unfold backoff. rewrite Nat2Z.inj_succ, Z.pow_succ_r by lia.
  assert (0 < 2 ^ Z.of_nat k)%Z by (apply Z.pow_pos_nonneg; lia). lia.
Qed.

Section Server.
Variable server : nat -> string -> option Tag.

Lemma make_request_not_raised fuel url w e :
  (make_request server fuel url w).1 <> Raised e.
Proof. by apply call_not_raised. Qed.

(** [n] failures followed by a success: [n + 1] GETs, [n] sleeps. *)
Lemma retry_until_success url n : forall fuel a w d,
  (forall i, i < n -> server (length (requests w) + i) url = None) ->
  server (length (requests w) + n) url = Some d ->
  n < fuel ->
  call retry_args (session_get server url) fuel a w =
    (Returned d,
     {| requests := requests w ++ replicate (S n) url;
        sleeps := sleeps w ++ (backoff <$> seq a n) |}).
Proof.
  induction n as [|n IH]; intros fuel a w d Hfail Hok Hfuel;
    (destruct fuel as [|fuel]; [lia|]); cbn [call]; unfold session_get at 1.
  - rewrite Nat.add_0_r in Hok. rewrite Hok. cbn. by rewrite app_nil_r.
  - rewrite <- (Nat.add_0_r (length (requests w))), Hfail by lia.
    cbn [stop retry_args stop_max_attempt_number]. unfold bind, time_sleep.
    rewrite (IH fuel (S a) _ d); cbn [requests sleeps].
    + rewrite wait_backoff. f_equal. f_equal.
      * rewrite <- app_assoc. done.
      * rewrite <- app_assoc. done.
    + intros i Hi. rewrite length_app. cbn.
      replace (length (requests w) + 1 + i) with (length (requests w) + S i) by lia.
      apply Hfail. lia.
    + rewrite length_app. cbn.
      replace (length (requests w) + 1 + n) with (length (requests w) + S n) by lia.
      done.
    + lia.
Qed.

(** Failures only: the loop is still running when the budget ends. *)
Lemma retry_pending url : forall fuel a w,
  (forall i, i < fuel -> server (length (requests w) + i) url = None) ->
  call retry_args (session_get server url) fuel a w =
    (Pending,
     {| requests := requests w ++ replicate fuel url;
        sleeps := sleeps w ++ (backoff <$> seq a fuel) |}).
Proof.
  induction fuel as [|fuel IH]; intros a w Hfail; cbn [call].
  - cbn. rewrite !app_nil_r. by destruct w.
  - unfold session_get at 1.
    rewrite <- (Nat.add_0_r (length (requests w))), Hfail by lia.
    cbn [stop retry_args stop_max_attempt_number]. unfold bind, time_sleep.
    rewrite IH; cbn [requests sleeps].
    + rewrite wait_backoff. f_equal. f_equal; by rewrite <- app_assoc.
    + intros i Hi. rewrite length_app. cbn.
      replace (length (requests w) + 1 + i) with (length (requests w) + S i) by lia.
      apply Hfail. lia.
Qed.

Lemma make_request_down fuel url w :
  (forall n, server n url = None) ->
  (make_request server fuel url w).1 = Pending.
Proof. intros H. unfold make_request. by rewrite retry_pending. Qed.

(** An answer within the budget is returned. *)
Lemma call_returns url : forall fuel j a w,
  j < fuel -> is_Some (server (length (requests w) + j) url) ->
  exists d n w', server n url = Some d /\
    call retry_args (session_get server url) fuel a w = (Returned d, w').
Proof.
  induction fuel as [|fuel IH]; intros j a w Hj Hsome; [lia|].
  cbn [call]. unfold session_get at 1.
  destruct (server (length (requests w)) url) as [d|] eqn:E.
  - eauto.
  - cbn [stop retry_args stop_max_attempt_number]. unfold bind, time_sleep.
    destruct j as [|j].
    { rewrite Nat.add_0_r, E in Hsome. by destruct Hsome. }
    apply (IH j); [lia|]. cbn [requests]. rewrite length_app. cbn.
    by replace (length (requests w) + 1 + j) with (length (requests w) + S j) by lia.
Qed.

(** The log of requests only grows, and a call with some budget starts
    with a GET of its URL. *)
Lemma call_requests url : forall fuel a w,
  exists more,
    requests (call retry_args (session_get server url) fuel a w).2
    = requests w ++ more.
Proof.
  induction fuel as [|fuel IH]; intros a w; cbn [call].
  - exists []. by rewrite app_nil_r.
  - unfold session_get at 1.
    destruct (server (length (requests w)) url) as [d|].
    + by exists [url].
    + cbn [stop retry_args stop_max_attempt_number]. unfold bind, time_sleep.
      cbn [requests sleeps].
      destruct (IH (S a)
        {| requests := requests w ++ [url];
           sleeps := sleeps w ++ [wait retry_args a] |}) as [more ->].
      exists (url :: more). cbn. by rewrite <- app_assoc.
Qed.

Lemma make_request_first fuel url w :
  0 < fuel ->
  exists more,
    requests (make_request server fuel url w).2 = requests w ++ url :: more.
Proof.
  intros Hfuel. destruct fuel as [|fuel]; [lia|].
  unfold make_request. cbn [call]. unfold session_get at 1.
  destruct (server (length (requests w)) url) as [d|].
  - by exists [].
  - cbn [stop retry_args stop_max_attempt_number]. unfold bind, time_sleep.
    cbn [requests sleeps].
    destruct (call_requests url fuel 2
      {| requests := requests w ++ [url];
         sleeps := sleeps w ++ [wait retry_args 1] |}) as [more ->].
    exists more. cbn. by rewrite <- app_assoc.
Qed.

End Server.
End NetFacts.

(** ** Facts about the crawl *)
Module CrawlFacts.
Import Soup Net Scraper Reference NetFacts.

Lemma quote_info_keys qt a h (info : dict) :
  dom (quote_info qt a h info) = record_keys.
Proof.
  unfold quote_info, record_keys.
  rewrite !dom_insert_L, dom_singleton_L. set_solver.
Qed.

Section Server.
Variable server : nat -> string -> option Tag.
Variable resolve : string -> string -> string.

Lemma scrape_author_info_not_raised fuel url w e :
  (scrape_author_info server fuel url w).1 <> Raised e.
Proof.
  unfold scrape_author_info, bind.
  pose proof (make_request_not_raised server fuel url w) as H.
  destruct (make_request server fuel url w) as [[r|e'|] w1]; cbn in *;
    [done|by destruct (H e')|done].
Qed.

Lemma for_elements_not_raised fuel els : forall quotes w e,
  (for_elements server resolve fuel els quotes w).1 <> Raised e.
Proof.
  induction els as [|el els IH]; intros quotes w e; [done|].
  cbn [for_elements]. unfold bind at 1.
  pose proof (scrape_author_info_not_raised fuel
    (urljoin resolve BASE_URL (get_href el span_a)) w) as H.
  destruct (scrape_author_info server fuel _ w) as [[info|e'|] w1];
    cbn [fst] in *; [apply IH|by destruct (H e')|done].
Qed.

Lemma for_pages_not_raised fuel url pages : forall quotes w e,
  (for_pages server resolve fuel url pages quotes w).1 <> Raised e.
Proof.
  induction pages as [|page pages IH]; intros quotes w e; [done|].
  cbn [for_pages]. unfold bind at 1.
  pose proof (make_request_not_raised server fuel (page_url url page) w) as H.
  destruct (make_request server fuel _ w) as [[r|e'|] w1];
    cbn [fst] in *; [|by destruct (H e')|done].
  unfold bind at 1.
  pose proof (for_elements_not_raised fuel
    (select (BeautifulSoup r) div_quote) quotes w1) as H1.
  destruct (for_elements server resolve fuel _ quotes w1) as [[qs|e'|] w2];
    cbn [fst] in *; [apply IH|by destruct (H1 e')|done].
Qed.

(** A page that never answers keeps the crawl from returning. *)
Lemma for_pages_down fuel url p pages : forall quotes w,
  p ∈ pages ->
  (forall n, server n (page_url url p) = None) ->
  (for_pages server resolve fuel url pages quotes w).1 = Pending.
Proof.
  induction pages as [|page pages IH]; intros quotes w Hin Hdown.
  { by apply elem_of_nil in Hin. }
  cbn [for_pages]. unfold bind at 1.
  pose proof (make_request_not_raised server fuel (page_url url page) w) as H.
  destruct (make_request server fuel (page_url url page) w)
    as [[r|e'|] w1] eqn:E; [|by destruct (H e')|done].
  apply elem_of_cons in Hin as [->|Hin].
  { pose proof (make_request_down server fuel (page_url url page) w Hdown) as D.
    by rewrite E in D. }
  unfold bind at 1.
  pose proof (for_elements_not_raised fuel
    (select (BeautifulSoup r) div_quote) quotes w1) as H1.
  destruct (for_elements server resolve fuel _ quotes w1) as [[qs|e'|] w2];
    [by apply IH|by destruct (H1 e')|done].
Qed.

(** Every record that is emitted has the six columns. *)
Lemma for_elements_keys fuel els : forall quotes w rs w',
  for_elements server resolve fuel els quotes w = (Returned rs, w') ->
  Forall (fun r : dict => dom r = record_keys) quotes ->
  Forall (fun r : dict => dom r = record_keys) rs.
Proof.
  induction els as [|el els IH]; intros quotes w rs w' Hrun Hq.
  { by injection Hrun as <- _. }
  cbn [for_elements] in Hrun. unfold bind at 1 in Hrun.
  destruct (scrape_author_info server fuel _ w) as [[info|e'|] w1]; [|done..].
  eapply IH; [exact Hrun|].
  apply Forall_app; split; [done|].
  apply Forall_singleton, quote_info_keys.
Qed.

Lemma for_pages_keys fuel url pages : forall quotes w rs w',
  for_pages server resolve fuel url pages quotes w = (Returned rs, w') ->
  Forall (fun r : dict => dom r = record_keys) quotes ->
  Forall (fun r : dict => dom r = record_keys) rs.
Proof.
  induction pages as [|page pages IH]; intros quotes w rs w' Hrun Hq.
  { by injection Hrun as <- _. }
  cbn [for_pages] in Hrun. unfold bind at 1 in Hrun.
  destruct (make_request server fuel _ w) as [[r|e'|] w1]; [|done..].
  unfold bind at 1 in Hrun.
  destruct (for_elements server resolve fuel _ quotes w1)
    as [[qs|e'|] w2] eqn:E; [|done..].
  eapply IH; [exact Hrun|]. eapply for_elements_keys; eauto.
Qed.

(** The detail page of an entry is requested whatever its link is. *)
Lemma scrape_author_info_first fuel url w :
  0 < fuel ->
  exists more,
    requests (scrape_author_info server fuel url w).2
    = requests w ++ url :: more.
Proof.
  intros Hfuel. unfold scrape_author_info, bind.
  destruct (make_request_first server fuel url w Hfuel) as [more H].
  destruct (make_request server fuel url w) as [[r|e'|] w1]; by exists more.
Qed.

Lemma for_elements_requests fuel els : forall quotes w,
  exists more,
    requests (for_elements server resolve fuel els quotes w).2
    = requests w ++ more.
Proof.
  induction els as [|el els IH]; intros quotes w.
  { exists []. by rewrite app_nil_r. }
  cbn [for_elements]. unfold bind at 1.
  destruct (call_requests server
    (urljoin resolve BASE_URL (get_href el span_a)) fuel 1 w) as [m1 H1].
  unfold scrape_author_info, bind, make_request.
  destruct (call retry_args (session_get server _) fuel 1 w)
    as [[r|e'|] w1]; cbn [snd] in *; [|by exists m1..].
  unfold ret.
  destruct (IH (quotes ++
    [quote_info (get_text el span_text) (get_text el small_author)
       (get_href el span_a) (parse_author_info (BeautifulSoup r))]) w1)
    as [m2 ->].
  exists (m1 ++ m2). by rewrite H1, <- app_assoc.
Qed.

Lemma for_elements_first fuel el els quotes w :
  0 < fuel ->
  exists more,
    requests (for_elements server resolve fuel (el :: els) quotes w).2
    = requests w ++ urljoin resolve BASE_URL (get_href el span_a) :: more.
Proof.
  intros Hfuel. cbn [for_elements]. unfold bind at 1.
  destruct (scrape_author_info_first fuel
    (urljoin resolve BASE_URL (get_href el span_a)) w Hfuel) as [m1 H1].
  destruct (scrape_author_info server fuel _ w) as [[info|e'|] w1];
    cbn [snd] in *; [|by exists m1..].
  destruct (for_elements_requests fuel els
    (quotes ++ [quote_info (get_text el span_text)
                  (get_text el small_author) (get_href el span_a) info]) w1)
    as [m2 ->].
  exists (m1 ++ m2). by rewrite H1, <- app_assoc.
Qed.

(** On a site that answers within [k] attempts and does not change, the
    crawl returns the reference records. *)
Section Live.
Variable site : string -> Tag.
Variable k : nat.
Hypothesis Hlive : live server k.
Hypothesis Hserves : serves server site.

Lemma make_request_returns fuel url w :
  k <= fuel ->
  exists w', make_request server fuel url w = (Returned (site url), w').
Proof.
  intros Hfuel. destruct (Hlive (length (requests w)) url) as (j & Hj & Hs).
  destruct (call_returns server url fuel j 1 w) as (d & n & w' & Hd & Hrun);
    [lia|done|].
  rewrite (Hserves _ _ _ Hd) in Hrun. by exists w'.
Qed.

Lemma scrape_author_info_returns fuel url w :
  k <= fuel ->
  exists w', scrape_author_info server fuel url w
             = (Returned (parse_author_info (BeautifulSoup (site url))), w').
Proof.
  intros Hfuel. destruct (make_request_returns fuel url w Hfuel) as [w' H].
  exists w'. unfold scrape_author_info. by rewrite (bind_returned _ _ _ _ _ H).
Qed.

Lemma for_elements_returns fuel els : forall quotes w,
  k <= fuel ->
  exists w', for_elements server resolve fuel els quotes w
             = (Returned (quotes ++ (record_of site resolve <$> els)), w').
Proof.
  induction els as [|el els IH]; intros quotes w Hfuel.
  { exists w. cbn. by rewrite app_nil_r. }
  cbn [for_elements].
  destruct (scrape_author_info_returns fuel
    (urljoin resolve BASE_URL (get_href el span_a)) w Hfuel) as [w1 H].
  rewrite (bind_returned _ _ _ _ _ H).
  destruct (IH (quotes ++ [record_of site resolve el]) w1 Hfuel) as [w2 H2].
  exists w2. unfold record_of in H2 at 1. rewrite H2.
  by rewrite <- app_assoc.
Qed.

Lemma for_pages_returns fuel url pages : forall quotes w,
  k <= fuel ->
  exists w', for_pages server resolve fuel url pages quotes w
             = (Returned (quotes ++
                  concat (page_records site resolve url <$> pages)), w').
Proof.
  induction pages as [|page pages IH]; intros quotes w Hfuel.
  { exists w. cbn. by rewrite app_nil_r. }
  cbn [for_pages].
  destruct (make_request_returns fuel (page_url url page) w Hfuel) as [w1 H].
  rewrite (bind_returned _ _ _ _ _ H).
  destruct (for_elements_returns fuel
    (select (BeautifulSoup (site (page_url url page))) div_quote)
    quotes w1 Hfuel) as [w2 H2].
  rewrite (bind_returned _ _ _ _ _ H2).
  destruct (IH (quotes ++ page_records site resolve url page) w2 Hfuel)
    as [w3 H3].
  exists w3. unfold page_records at 1, entries in H3. rewrite H3.
  cbn. by rewrite <- app_assoc.
Qed.

Lemma scrape_quotes_returns fuel url num_pages w :
  k <= fuel ->
  exists w', scrape_quotes server resolve fuel url num_pages w
             = (Returned (crawl_records site resolve url num_pages), w').
Proof.
  intros Hfuel. unfold scrape_quotes, range, crawl_records.
  replace (num_pages + 1 - 1)%Z with num_pages by lia.
  apply (for_pages_returns fuel url (seqZ 1 num_pages) [] w Hfuel).
Qed.

End Live.
End Server.

(** The sample servers. *)
Lemma up_live : live Samples.up 1.
Proof. intros n url. exists 0. split; [lia|]. by eexists. Qed.

Lemma flaky_live : live Samples.flaky 2.
Proof.
  intros n url. unfold Samples.flaky.
  destruct (Nat.even n) eqn:E.
  - exists 1. split; [lia|].
    replace (n + 1) with (S n) by lia. rewrite Nat.even_succ.
    rewrite <- Nat.negb_even, E. by eexists.
  - exists 0. split; [lia|]. rewrite Nat.add_0_r, E. by eexists.
Qed.

Lemma up_serves : serves Samples.up Samples.site.
Proof. by intros n url doc [= <-]. Qed.

Lemma flaky_serves : serves Samples.flaky Samples.site.
Proof.
  intros n url doc. unfold Samples.flaky. destruct (Nat.even n); [done|].
  by intros [= <-].
Qed.

End CrawlFacts.

(** ** Properties of the scraper *)
Module Claims.
Import PyStr Soup Net Scraper Reference Samples.
Import PyStrFacts NetFacts CrawlFacts.

(** *** List extraction *)

(** Positionwise correspondence carried through the pages. *)
Lemma Forall2_concat_fmap {A B C} (R : B -> C -> Prop)
    (f : A -> list B) (g : B -> C) (l : list A) :
  (forall b, R b (g b)) ->
  Forall2 R (concat (f <$> l)) (concat ((fun a => g <$> f a) <$> l)).
Proof.
  intros HR. induction l as [|a l IH]; [constructor|].
  cbn. apply Forall2_app; [|done].
  apply Forall2_fmap_r, Forall_Forall2_diag, Forall_forall. auto.
Qed.




(** *** Page failures *)




(** *** Retry and backoff *)

(** C3, as amended: the fetch retries after every failed attempt, with no
    bound on the number of attempts.  After [n] failures it returns the
    first answer, having issued [n + 1] GETs; it never raises; while the
    GETs keep failing it is still retrying, however large the budget.
    The wait after the [j]-th failure is min(2000 * 2^j, 10000) ms: 4 s,
    8 s, then 10 s, doubling until capped. *)
Theorem C3_retry_unbounded_backoff_capped server url n fuel w d :
  (forall i, i < n -> server (length (requests w) + i) url = None) ->
  server (length (requests w) + n) url = Some d ->
  n < fuel ->
  make_request server fuel url w
    = (Returned d,
       {| requests := requests w ++ replicate (S n) url;
          sleeps := sleeps w ++ (backoff <$> seq 1 n) |})
  /\ (forall server' fuel' url' w' e,
        (make_request server' fuel' url' w').1 <> Raised e)
  /\ (forall server' fuel' url' w',
        (forall i, i < fuel' ->
                   server' (length (requests w') + i) url' = None) ->
        make_request server' fuel' url' w'
        = (Pending,
           {| requests := requests w' ++ replicate fuel' url';
              sleeps := sleeps w' ++ (backoff <$> seq 1 fuel') |}))
  /\ (forall j, wait retry_args j = backoff j)
  /\ backoff 1 = 4000%Z /\ backoff 2 = 8000%Z
  /\ (forall j, backoff (S j) = Z.min (2 * backoff j) 10000)
  /\ (forall j, 3 <= j -> backoff j = 10000%Z).
Proof.
  intros Hfail Hok Hfuel. repeat split.
  - by apply retry_until_success.
  - intros server' fuel' url' w' e. apply make_request_not_raised.
  - intros server' fuel' url' w' Hdown. by apply retry_pending.
  - apply wait_backoff.
  - apply backoff_double.
  - intros j Hj. unfold backoff.
    assert (2 ^ 3 <= 2 ^ Z.of_nat j)%Z by (apply Z.pow_le_mono_r; lia). lia.
Qed.

Lemma C3_retry_unbounded_backoff_capped_witness :
  (forall i, i < 5 ->
     up_after_five (length (requests world0) + i) BASE_URL = None) /\
  up_after_five (length (requests world0) + 5) BASE_URL = Some (site BASE_URL) /\
  5 < 6 /\
  make_request up_after_five 6 BASE_URL world0
    = (Returned (site BASE_URL),
       {| requests := requests world0 ++ replicate 6 BASE_URL;
          sleeps := sleeps world0 ++ (backoff <$> seq 1 5) |}).
Proof.
  assert (forall i, i < 5 ->
    up_after_five (length (requests world0) + i) BASE_URL = None) as Hfail.
  { intros i Hi. change (length (requests world0) + i) with i.
    unfold up_after_five. destruct (Nat.ltb_spec i 5); [done|lia]. }
  split; [exact Hfail|]. split; [reflexivity|]. split; [lia|].
  apply (C3_retry_unbounded_backoff_capped
           up_after_five BASE_URL 5 6 world0 (site BASE_URL));
    [exact Hfail|reflexivity|lia].
Defined.

(** C3, as stated, fails: after five failed attempts a sixth is made
    (and returns), and against a server that never answers no number
    bounds the attempts. *)
Lemma C3_sixth_attempt_and_no_bound :
  make_request up_after_five 6 BASE_URL world0
    = (Returned (site BASE_URL),
       {| requests := replicate 6 BASE_URL;
          sleeps := [4000; 8000; 10000; 10000; 10000]%Z |})
  /\ ~ exists N, forall fuel,
         length (requests (make_request down fuel BASE_URL world0).2) <= N.
Proof.
  split; [vm_compute; reflexivity|].
  intros [N HN]. specialize (HN (S N)).
  unfold make_request in HN. rewrite retry_pending in HN by done.
  cbn [snd requests world0] in HN.
  rewrite length_app, length_replicate in HN. cbn in HN. lia.
Qed.

(** *** Detail links *)




(** *** Detail extraction *)

(** The three shapes of the dict that [parse_author_info] returns. *)
Lemma parse_author_info_shape soup :
  let description :=
    match select_one soup div_author_description with
    | Some d => text d
    | None => ""
    end in
  parse_author_info soup = <["description" := description]> ∅
  \/ (exists raw,
        parse_author_info soup
        = <["description" := description]> (<["birthdate" := strip raw]> ∅))
  \/ (exists date place,
        parse_author_info soup
        = <["description" := description]>
            (<["birthplace" := strip place]> (<["birthdate" := strip date]> ∅))).
Proof.
  unfold parse_author_info.
  destruct (select_one soup p_born) as [born_info|]; [|by left].
  destruct (split ": " (text born_info)) as [|p0 [|born_info_text ps]];
    [by left..|].
  destruct (split " in " born_info_text) as [|date [|place more]];
    [right; left; by eexists..|].
  right; right. by eexists _, _.
Qed.

(** C5, as amended: for a "Born:" block whose text has one [": "], the
    text after it is the remainder [r].  When [" in "] does not occur in
    [r], the birth date is [r] stripped and no birthplace is produced.
    When it occurs once, the birth date is the text before it and the
    birthplace the text after it, both stripped.  The two sample texts
    give the stated values. *)
Theorem C5_born_split soup born_info pre r :
  select_one soup p_born = Some born_info ->
  text born_info = pre +:+ ": " +:+ r ->
  find ": " (text born_info) = Some (String.length pre) ->
  find ": " r = None ->
  let info := parse_author_info soup in
  (find " in " r = None ->
     info !! "birthdate" = Some (strip r) /\ info !! "birthplace" = None)
  /\ (forall date place,
        r = date +:+ " in " +:+ place ->
        find " in " r = Some (String.length date) ->
        find " in " place = None ->
        info !! "birthdate" = Some (strip date) /\
        info !! "birthplace" = Some (strip place))
  /\ (let eg := parse_author_info (BeautifulSoup
                  (about "Born: September 16, 1977 in New York City" "")) in
      eg !! "birthdate" = Some "September 16, 1977" /\
      eg !! "birthplace" = Some "New York City")
  /\ (let eg := parse_author_info (BeautifulSoup (about "Born: 1977" "")) in
      eg !! "birthdate" = Some "1977" /\ eg !! "birthplace" = None).
Proof.
  intros Hsel Htext Hfind Hr info.
  assert (split ": " (text born_info) = [pre; r]) as Hsplit.
  { rewrite Htext in Hfind |- *.
    rewrite split_first by done. by rewrite (split_absent ": " r Hr). }
  split; [|split; [|split; split; vm_compute; reflexivity]].
  - intros Hin. subst info. unfold parse_author_info.
    rewrite Hsel, Hsplit, (split_absent " in " r Hin).
    by simplify_map_eq.
  - intros date place -> Hin Hplace. subst info. unfold parse_author_info.
    rewrite Hsel, Hsplit, (split_first " in " date place) by done.
    rewrite (split_absent " in " place Hplace).
    by simplify_map_eq.
Qed.

Lemma C5_born_split_witness :
  let soup := BeautifulSoup (about "Born: May 1, 1900 in Paris" "") in
  let info := parse_author_info soup in
  info !! "birthdate" = Some (strip "May 1, 1900") /\
  info !! "birthplace" = Some (strip "Paris").
Proof.
  intros soup info.
  refine (proj1 (proj2 (C5_born_split soup
    {| parents := [about "Born: May 1, 1900 in Paris" ""];
       node := born_paragraph "Born: May 1, 1900 in Paris" |}
    "Born" "May 1, 1900 in Paris" _ _ _ _))
    "May 1, 1900" "Paris" _ _ _); vm_compute; reflexivity.
Defined.

(** C5, as stated, fails: with two separators the birth date is the text
    before the first and the birthplace the text between the two, so the
    remainder is not the birth date, the separator and the birthplace;
    and the values are stripped, so with blanks around the separator they
    are not the text before and after it. *)
Lemma C5_text_after_second_separator_dropped :
  let info := parse_author_info
                (BeautifulSoup (about "Born: May 1, 1900 in Paris in France" "")) in
  info !! "birthdate" = Some "May 1, 1900"
  /\ info !! "birthplace" = Some "Paris"
  /\ ~ (exists before after,
          "May 1, 1900 in Paris in France" = before +:+ " in " +:+ after /\
          info !! "birthdate" = Some before /\
          info !! "birthplace" = Some after)
  /\ parse_author_info (BeautifulSoup (about "Born:  1977  in  Rome" ""))
       !! "birthdate" = Some "1977".
Proof.
  intros info.
  assert (info !! "birthdate" = Some "May 1, 1900") as Hd
    by (vm_compute; reflexivity).
  assert (info !! "birthplace" = Some "Paris") as Hp
    by (vm_compute; reflexivity).
  split; [exact Hd|]. split; [exact Hp|]. split; [|vm_compute; reflexivity].
  intros (before & after & Heq & Hb & Ha).
  rewrite Hd in Hb. rewrite Hp in Ha.
  injection Hb as <-. injection Ha as <-. discriminate Heq.
Qed.

(** *** Page count *)

(** C6, as amended: a page count of zero or less is not an error;
    [range(1, num_pages + 1)] is then empty, so the crawl issues no GET
    and returns the empty list at once. *)
Theorem C6_nonpositive_page_count_returns_empty
    server resolve fuel url num_pages w :
  (num_pages <= 0)%Z ->
  scrape_quotes server resolve fuel url num_pages w = (Returned [], w).
Proof.
  intros Hn. unfold scrape_quotes, range. by rewrite seqZ_nil by lia.
Qed.

Lemma C6_nonpositive_page_count_returns_empty_witness :
  (-3 <= 0)%Z /\
  scrape_quotes up resolve_rooted 0 BASE_URL (-3) world0 = (Returned [], world0).
Proof.
  split; [lia|].
  apply (C6_nonpositive_page_count_returns_empty
           up resolve_rooted 0 BASE_URL (-3) world0).
  lia.
Defined.

(** C6, as stated, fails: with page count 0 or -1 the crawl returns
    normally, with an empty result, instead of raising. *)
Lemma C6_zero_pages_no_error :
  scrape_quotes up resolve_rooted 1 BASE_URL 0 world0 = (Returned [], world0)
  /\ scrape_quotes up resolve_rooted 1 BASE_URL (-1) world0
     = (Returned [], world0).
Proof. split; vm_compute; reflexivity. Qed.

(** *** Record shape *)

(** C7: the detail extraction returns for every document that is
    fetched, and a record always has the six columns; the birth date and
    birthplace columns are empty when the page has no "Born:" block (or
    the extractor did not produce the value), the description column is
    empty when the page has no description block. *)
Theorem C7_missing_blocks_leave_empty_fields soup qt author href :
  let info := parse_author_info soup in
  let r := quote_info qt author href info in
  dom r = record_keys
  /\ (select_one soup p_born = None ->
      r !! "Birthdate" = Some "" /\ r !! "Birthplace" = Some "")
  /\ (select_one soup div_author_description = None ->
      r !! "Description" = Some "")
  /\ (info !! "birthdate" = None -> r !! "Birthdate" = Some "")
  /\ (info !! "birthplace" = None -> r !! "Birthplace" = Some "")
  /\ (forall server fuel url w doc,
        0 < fuel -> server (length (requests w)) url = Some doc ->
        (scrape_author_info server fuel url w).1
        = Returned (parse_author_info (BeautifulSoup doc)))
  /\ (forall server resolve fuel url num_pages w rs w',
        scrape_quotes server resolve fuel url num_pages w = (Returned rs, w') ->
        Forall (fun r : dict => dom r = record_keys) rs).
Proof.
  intros info r. subst r info.
  split; [apply quote_info_keys|].
  split; [|split; [|split; [|split; [|split]]]].
  - intros H. unfold parse_author_info, quote_info. rewrite H.
    split; by simplify_map_eq.
  - unfold parse_author_info, quote_info. intros ->. by simplify_map_eq.
  - unfold quote_info. intros ->. by simplify_map_eq.
  - unfold quote_info. intros ->. by simplify_map_eq.
  - intros server fuel url w doc Hfuel Hok.
    destruct fuel as [|fuel]; [lia|].
    unfold scrape_author_info, bind, make_request. cbn [call].
    unfold session_get at 1. by rewrite Hok.
  - intros server resolve fuel url num_pages w rs w' Hrun.
    by eapply for_pages_keys.
Qed.

Lemma C7_missing_blocks_leave_empty_fields_witness :
  let soup := BeautifulSoup (document []) in
  let r := quote_info "q" "Ann" "" (parse_author_info soup) in
  select_one soup p_born = None /\
  select_one soup div_author_description = None /\
  r !! "Birthdate" = Some "" /\ r !! "Birthplace" = Some "" /\
  r !! "Description" = Some "".
Proof.
  intros soup r.
  pose proof (C7_missing_blocks_leave_empty_fields soup "q" "Ann" "")
    as (_ & Hborn & Hdesc & _).
  assert (select_one soup p_born = None) as H1 by reflexivity.
  assert (select_one soup div_author_description = None) as H2 by reflexivity.
  split; [exact H1|]. split; [exact H2|].
  split; [exact (proj1 (Hborn H1))|].
  split; [exact (proj2 (Hborn H1))|exact (Hdesc H2)].
Defined.

(** *** Crawl order *)



(** *** The enrichment dict *)

(** C9: the dict returned by the detail extraction always has the key
    [description], and has the key [birthplace] only together with the
    key [birthdate]. *)
Theorem C9_description_always_birthplace_needs_birthdate soup :
  let info := parse_author_info soup in
  is_Some (info !! "description")
  /\ (is_Some (info !! "birthplace") -> is_Some (info !! "birthdate")).
Proof.
  intros info. subst info.
  destruct (parse_author_info_shape soup)
    as [-> | [(raw & ->) | (date & place & ->)]];
    split; intros; simplify_map_eq; by eauto.
Qed.

Lemma C9_description_always_birthplace_needs_birthdate_witness :
  let info := parse_author_info (BeautifulSoup (site
                "https://quotes.toscrape.com/author/Ann")) in
  is_Some (info !! "birthplace") /\ is_Some (info !! "birthdate").
Proof.
  intros info. assert (is_Some (info !! "birthplace")) as H.
  { exists "New York City". vm_compute. reflexivity. }
  split; [exact H|].
  exact (proj2 (C9_description_always_birthplace_needs_birthdate
                  (BeautifulSoup (site "https://quotes.toscrape.com/author/Ann")))
           H).
Defined.



End Claims.

(** ** Facts about the csv reader and writer *)
Module CsvFacts.
Import PyStr Csv Exchange PyStrFacts.

Lemma length_append a b :
  String.length (a +:+ b) = String.length a + String.length b.
Proof. induction a as [|c a IH]; [done|]. rewrite append_cons. cbn. by rewrite IH. Qed.

Lemma append_nonempty a b : b <> "" -> a +:+ b <> "".
Proof. destruct a; [done|]. by rewrite append_cons. Qed.

Lemma special_false c :
  special c = false -> c <> COMMA /\ c <> DQUOTE /\ c <> CR /\ c <> LF.
Proof.
  unfold special. rewrite !orb_false_iff.
  intros [[[?%bool_decide_eq_false ?%bool_decide_eq_false]
             ?%bool_decide_eq_false] ?%bool_decide_eq_false]. done.
Qed.

Lemma for_rows_cons {A} (body : A -> list string -> exn + A) r acc c rest :
  for_rows body r acc (String c rest) =
  match parse_process_char r (Ch c) with
  | None => inl CsvError
  | Some r1 =>
      if ends_line c rest then
        match parse_process_char r1 EOL with
        | None => inl CsvError
        | Some r2 =>
            if bool_decide (state r2 = START_RECORD) then
              match body acc (fields r2) with
              | inl e => inl e
              | inr acc' => for_rows body parse_reset acc' rest
              end
            else for_rows body r2 acc rest
        end
      else for_rows body r1 acc rest
  end.
Proof. reflexivity. Qed.

Ltac reader_simpl :=
  repeat (progress (unfold set_state, parse_save_field, parse_reset;
                    cbn [parse_process_char start_field state field fields
                         fmap option_fmap option_map])).

Lemma add_char_ok r c :
  (N.of_nat (String.length (field r)) < field_limit)%N ->
  parse_add_char r c
  = Some {| state := state r; field := field r +:+ String c "";
            fields := fields r |}.
Proof.
  intros H. unfold parse_add_char.
  by destruct (N.leb_spec field_limit (N.of_nat (String.length (field r))));
    [lia|].
Qed.

(** Within a line: the next character neither is nor ends a line break. *)
Lemma ends_line_inner c rest :
  c <> LF -> c <> CR -> rest <> "" -> ends_line c rest = false.
Proof.
  intros. unfold ends_line.
  by rewrite !bool_decide_eq_false_2 by done.
Qed.

Lemma is_newline_cr : is_newline CR = true.
Proof. reflexivity. Qed.

Lemma is_newline_lf : is_newline LF = true.
Proof. reflexivity. Qed.

Lemma ends_line_cr_lf rest : ends_line CR (String LF rest) = false.
Proof.
  unfold ends_line.
  rewrite (bool_decide_eq_false_2 (String LF rest = "")) by done.
  rewrite (bool_decide_eq_false_2 (CR = LF)) by done.
  rewrite (bool_decide_eq_true_2 (CR = CR)) by done.
  cbn. by destruct (ascii_dec LF LF); [destruct rest|].
Qed.

Lemma ends_line_lf rest : ends_line LF rest = true.
Proof. unfold ends_line. by rewrite (bool_decide_eq_true_2 (LF = LF)). Qed.

Section Rows.
Context {A : Type} (body : A -> list string -> exn + A) (acc : A).

(** An unquoted field, once begun, is collected up to the delimiter. *)
Lemma in_field_run v : forall f fs tail,
  has_special v = false -> tail <> "" ->
  (N.of_nat (String.length f + String.length v) <= field_limit)%N ->
  for_rows body {| state := IN_FIELD; field := f; fields := fs |} acc
    (v +:+ tail)
  = for_rows body {| state := IN_FIELD; field := f +:+ v; fields := fs |} acc
      tail.
Proof.
  induction v as [|c v IH]; intros f fs tail Hsp Htail Hlen.
  { by rewrite append_nil_r. }
  cbn [has_special] in Hsp. apply orb_false_iff in Hsp as [Hc Hv].
  destruct (special_false c Hc) as (Hcomma & Hquote & Hcr & Hlf).
  rewrite append_cons, for_rows_cons. reader_simpl.
  unfold is_newline. rewrite !bool_decide_eq_false_2 by done. cbn [orb].
  rewrite add_char_ok by (cbn [field String.length] in *; lia).
  rewrite ends_line_inner by (try done; by apply append_nonempty).
  reader_simpl. rewrite IH; [|done..|].
  - by rewrite append_assoc.
  - rewrite length_append. cbn [String.length] in *. lia.
Qed.

(** A quoted field is collected up to its closing quote, line breaks
    included. *)
Lemma quoted_run v : forall f fs tail,
  tail <> "" ->
  (N.of_nat (String.length f + String.length v) <= field_limit)%N ->
  for_rows body {| state := IN_QUOTED_FIELD; field := f; fields := fs |} acc
    (double_quotes v +:+ String DQUOTE tail)
  = for_rows body
      {| state := QUOTE_IN_QUOTED_FIELD; field := f +:+ v; fields := fs |} acc
      tail.
Proof.
  induction v as [|c v IH]; intros f fs tail Htail Hlen.
  { rewrite append_nil_r. cbn [double_quotes].
    change ("" +:+ String DQUOTE tail) with (String DQUOTE tail).
    rewrite for_rows_cons. cbn [parse_process_char state].
    rewrite ?bool_decide_eq_true_2 by done.
    by rewrite ends_line_inner by done. }
  assert (double_quotes v +:+ String DQUOTE tail <> "") as Hrest
    by by apply append_nonempty.
  assert (N.of_nat (String.length f) < field_limit)%N as Hf
    by (cbn [String.length] in Hlen; lia).
  assert (N.of_nat (String.length (f +:+ String c "") + String.length v)
          <= field_limit)%N as Hlen'
    by (rewrite length_append; cbn [String.length] in *; lia).
  cbn [double_quotes]. destruct (bool_decide (c = DQUOTE)) eqn:Hc.
  - apply bool_decide_eq_true in Hc as ->.
    rewrite !append_cons, for_rows_cons. reader_simpl.
    rewrite ?bool_decide_eq_true_2 by done.
    rewrite ends_line_inner by done.
    rewrite for_rows_cons. reader_simpl.
    rewrite ?bool_decide_eq_true_2 by done.
    rewrite add_char_ok by done. reader_simpl.
    rewrite ends_line_inner by done.
    rewrite IH by done. by rewrite append_assoc.
  - apply bool_decide_eq_false in Hc.
    rewrite append_cons, for_rows_cons. reader_simpl.
    rewrite bool_decide_eq_false_2 by done.
    rewrite add_char_ok by done. reader_simpl.
    destruct (ends_line c _).
    + reader_simpl. rewrite bool_decide_eq_false_2 by done.
      rewrite IH by done. by rewrite append_assoc.
    + rewrite IH by done. by rewrite append_assoc.
Qed.

(** The blanks at the start of an unquoted field are passed over. *)
Lemma unquoted_run v : forall fs tail,
  has_special v = false -> tail <> "" ->
  (N.of_nat (String.length (skip_spaces v)) <= field_limit)%N ->
  for_rows body {| state := START_FIELD; field := ""; fields := fs |} acc
    (v +:+ tail)
  = for_rows body
      {| state := match skip_spaces v with
                  | EmptyString => START_FIELD
                  | _ => IN_FIELD
                  end;
         field := skip_spaces v; fields := fs |} acc tail.
Proof.
  induction v as [|c v IH]; intros fs tail Hsp Htail Hlen; [done|].
  cbn [has_special] in Hsp. apply orb_false_iff in Hsp as [Hc Hv].
  destruct (special_false c Hc) as (Hcomma & Hquote & Hcr & Hlf).
  rewrite append_cons, for_rows_cons. reader_simpl.
  unfold is_newline. rewrite !bool_decide_eq_false_2 by done. cbn [orb].
  rewrite ends_line_inner by (try done; by apply append_nonempty).
  cbn [skip_spaces] in *. destruct (bool_decide (c = SPACE)) eqn:Hspace.
  - by apply IH.
  - rewrite (bool_decide_eq_false_2 (c = COMMA)) by done.
    rewrite add_char_ok by (cbn; unfold field_limit; lia). reader_simpl.
    cbn [String.length] in Hlen.
    rewrite in_field_run; [done..|].
    cbn [String.length]. change ("" +:+ String c "") with (String c "").
    cbn [String.length]. lia.
Qed.

Lemma field_run v fs tail :
  fits v -> tail <> "" ->
  exists r, at_field_end r (read_back v) fs /\
    for_rows body {| state := START_FIELD; field := ""; fields := fs |} acc
      (join_append v +:+ tail)
    = for_rows body r acc tail.
Proof.
  unfold fits, read_back, join_append. intros Hfits Htail.
  destruct (has_special v) eqn:Hsp.
  - exists {| state := QUOTE_IN_QUOTED_FIELD; field := v; fields := fs |}.
    split; [split; [done|]; right; right; done|].
    rewrite append_cons, for_rows_cons. reader_simpl.
    assert (is_newline DQUOTE = false) as -> by reflexivity.
    rewrite ?bool_decide_eq_true_2 by done.
    rewrite append_assoc, append_cons.
    change ("" +:+ tail) with tail.
    rewrite ends_line_inner by (try done; by apply append_nonempty).
    by rewrite quoted_run by (try done; cbn; lia).
  - rewrite unquoted_run by done. eexists. split; [|reflexivity].
    split; [done|]. cbn [state field].
    destruct (skip_spaces v); [right; left|left]; done.
Qed.

Lemma end_comma r w fs rest :
  at_field_end r w fs -> rest <> "" ->
  for_rows body r acc (String COMMA rest)
  = for_rows body
      {| state := START_FIELD; field := ""; fields := fs ++ [w] |} acc rest.
Proof.
  intros [Hfs Hr] Hrest. destruct r as [s f fs']. cbn in Hfs, Hr. subst fs'.
  rewrite for_rows_cons, ends_line_inner by done.
  destruct Hr as [[-> ->] | [(-> & -> & ->) | [-> ->]]]; reflexivity.
Qed.

Lemma end_crlf r w fs rest :
  at_field_end r w fs ->
  for_rows body r acc (lineterminator +:+ rest)
  = match body acc (fs ++ [w]) with
    | inl e => inl e
    | inr acc' => for_rows body parse_reset acc' rest
    end.
Proof.
  intros [Hfs Hr]. destruct r as [s f fs']. cbn in Hfs, Hr. subst fs'.
  unfold lineterminator. rewrite !append_cons.
  change ("" +:+ rest) with rest.
  rewrite for_rows_cons.
  rewrite ends_line_cr_lf.
  destruct Hr as [[-> ->] | [(-> & -> & ->) | [-> ->]]];
    reader_simpl; rewrite ?is_newline_cr;
    rewrite ?bool_decide_eq_false_2 by done; reader_simpl;
    rewrite for_rows_cons, ends_line_lf; reader_simpl;
    rewrite ?is_newline_lf; reader_simpl; reflexivity.
Qed.

(** A record written by [writerow] is read back field by field. *)
Lemma fields_run vs : forall fs rest,
  vs <> [] -> Forall fits vs ->
  for_rows body {| state := START_FIELD; field := ""; fields := fs |} acc
    (join vs +:+ lineterminator +:+ rest)
  = match body acc (fs ++ (read_back <$> vs)) with
    | inl e => inl e
    | inr acc' => for_rows body parse_reset acc' rest
    end.
Proof.
  induction vs as [|v vs IH]; intros fs rest Hne Hfits; [done|].
  apply Forall_cons in Hfits as [Hv Hvs]. cbn [join].
  destruct vs as [|v' vs].
  - rewrite append_nil_r.
    destruct (field_run v fs (lineterminator +:+ rest) Hv) as (r & Hr & ->);
      [done|].
    by rewrite (end_crlf r (read_back v) fs rest Hr).
  - rewrite append_assoc, append_cons.
    destruct (field_run v fs
      (String COMMA (join (v' :: vs) +:+ lineterminator +:+ rest)) Hv)
      as (r & Hr & ->); [done|].
    rewrite (end_comma r (read_back v) fs _ Hr)
      by by apply append_nonempty.
    rewrite IH by done. cbn [fmap list_fmap]. by rewrite <- app_assoc.
Qed.

(** The first character of a record that is no line break is handled as
    the start of a field. *)
Lemma start_record c rest :
  is_newline c = false ->
  for_rows body parse_reset acc (String c rest)
  = for_rows body {| state := START_FIELD; field := ""; fields := [] |} acc
      (String c rest).
Proof.
  intros Hc. rewrite !for_rows_cons. unfold parse_reset.
  cbn [parse_process_char state]. by rewrite Hc.
Qed.

Lemma join_append_first v tail :
  (v <> "" \/ exists t, tail = String COMMA t) ->
  exists c rest, join_append v +:+ tail = String c rest /\ is_newline c = false.
Proof.
  unfold join_append. destruct (has_special v) eqn:Hsp.
  - intros _. rewrite append_cons. by eexists _, _.
  - destruct v as [|c v].
    + intros [?|[t ->]]; [done|]. by eexists _, _.
    + intros _. cbn [has_special] in Hsp.
      apply orb_false_iff in Hsp as [Hc _].
      destruct (special_false c Hc) as (_ & _ & Hcr & Hlf).
      rewrite append_cons. eexists _, _. split; [done|].
      unfold is_newline. by rewrite !bool_decide_eq_false_2.
Qed.

Lemma row_run vs rest :
  Forall fits vs ->
  for_rows body parse_reset acc (writerow vs +:+ rest)
  = match body acc (read_back <$> vs) with
    | inl e => inl e
    | inr acc' => for_rows body parse_reset acc' rest
    end.
Proof.
  intros Hfits. destruct vs as [|v vs].
  { cbn [writerow join]. change ("" +:+ lineterminator) with lineterminator.
    unfold lineterminator. rewrite !append_cons.
    change ("" +:+ rest) with rest.
    rewrite for_rows_cons, ends_line_cr_lf. reader_simpl.
    rewrite is_newline_cr. reader_simpl.
    rewrite for_rows_cons, ends_line_lf. reader_simpl.
    rewrite is_newline_lf. reader_simpl. reflexivity. }
  destruct (decide (v = "" /\ vs = [])) as [[-> ->]|Hne].
  - change (writerow [""] +:+ rest)
      with (String DQUOTE (String DQUOTE (lineterminator +:+ rest))).
    rewrite start_record by done.
    rewrite for_rows_cons. reader_simpl.
    assert (is_newline DQUOTE = false) as -> by reflexivity.
    rewrite ?bool_decide_eq_true_2 by done.
    rewrite ends_line_inner by done.
    rewrite for_rows_cons. reader_simpl.
    rewrite ?bool_decide_eq_true_2 by done.
    rewrite ends_line_inner by done.
    rewrite (end_crlf _ "" []); [done|]. split; [done|]. right; right. done.
  - assert (writerow (v :: vs) = join (v :: vs) +:+ lineterminator) as ->.
    { destruct v; [|done]. destruct vs; [by destruct Hne|done]. }
    rewrite append_assoc.
    assert (exists c t,
              join (v :: vs) +:+ lineterminator +:+ rest = String c t /\
              is_newline c = false) as (c & t & Heq & Hc).
    { cbn [join]. rewrite append_assoc. apply join_append_first.
      destruct v; [|by left]. destruct vs; [by destruct Hne|].
      right. rewrite append_cons. by eexists. }
    rewrite Heq, start_record, <- Heq by done.
    by apply (fields_run (v :: vs) [] rest).
Qed.

(** *** Fields beyond the size limit *)

Lemma add_char_full r c :
  (field_limit <= N.of_nat (String.length (field r)))%N ->
  parse_add_char r c = None.
Proof.
  intros H. unfold parse_add_char.
  by destruct (N.leb_spec field_limit (N.of_nat (String.length (field r))));
    [|lia].
Qed.

Lemma in_field_overflow v : forall f fs tail,
  has_special v = false -> tail <> "" ->
  (N.of_nat (String.length f) <= field_limit)%N ->
  (field_limit < N.of_nat (String.length f + String.length v))%N ->
  for_rows body {| state := IN_FIELD; field := f; fields := fs |} acc
    (v +:+ tail)
  = inl CsvError.
Proof.
  induction v as [|c v IH]; intros f fs tail Hsp Htail Hf Hlen.
  { cbn [String.length] in Hlen. lia. }
  cbn [has_special] in Hsp. apply orb_false_iff in Hsp as [Hc Hv].
  destruct (special_false c Hc) as (Hcomma & Hquote & Hcr & Hlf).
  rewrite append_cons, for_rows_cons. reader_simpl.
  unfold is_newline. rewrite !bool_decide_eq_false_2 by done. cbn [orb].
  destruct (N.leb_spec field_limit (N.of_nat (String.length f)))
    as [Hfull|Hroom].
  - by rewrite add_char_full.
  - rewrite add_char_ok by done.
    rewrite ends_line_inner by (try done; by apply append_nonempty).
    reader_simpl. apply IH; [done..| |];
      rewrite length_append; cbn [String.length] in *; lia.
Qed.

Lemma quoted_overflow v : forall f fs tail,
  tail <> "" ->
  (N.of_nat (String.length f) <= field_limit)%N ->
  (field_limit < N.of_nat (String.length f + String.length v))%N ->
  for_rows body {| state := IN_QUOTED_FIELD; field := f; fields := fs |} acc
    (double_quotes v +:+ String DQUOTE tail)
  = inl CsvError.
Proof.
  induction v as [|c v IH]; intros f fs tail Htail Hf Hlen.
  { cbn [String.length] in Hlen. lia. }
  assert (double_quotes v +:+ String DQUOTE tail <> "") as Hrest
    by by apply append_nonempty.
  cbn [double_quotes].
  destruct (N.leb_spec field_limit (N.of_nat (String.length f)))
    as [Hfull|Hroom].
  - destruct (bool_decide (c = DQUOTE)) eqn:Hc.
    + rewrite !append_cons, for_rows_cons. reader_simpl.
      rewrite ?bool_decide_eq_true_2 by done.
      rewrite ends_line_inner by done.
      rewrite for_rows_cons. reader_simpl.
      rewrite ?bool_decide_eq_true_2 by done.
      by rewrite add_char_full.
    + rewrite append_cons, for_rows_cons. reader_simpl.
      rewrite Hc. by rewrite add_char_full.
  - assert (N.of_nat (String.length (f +:+ String c "")) <= field_limit)%N
      by (rewrite length_append; cbn [String.length]; lia).
    assert (field_limit
            < N.of_nat (String.length (f +:+ String c "") + String.length v))%N
      by (rewrite length_append; cbn [String.length] in *; lia).
    destruct (bool_decide (c = DQUOTE)) eqn:Hc.
    + apply bool_decide_eq_true in Hc as ->.
      rewrite !append_cons, for_rows_cons. reader_simpl.
      rewrite ?bool_decide_eq_true_2 by done.
      rewrite ends_line_inner by done.
      rewrite for_rows_cons. reader_simpl.
      rewrite ?bool_decide_eq_true_2 by done.
      rewrite add_char_ok by done. reader_simpl.
      rewrite ends_line_inner by done.
      by apply IH.
    + rewrite append_cons, for_rows_cons. reader_simpl.
      rewrite Hc. rewrite add_char_ok by done. reader_simpl.
      destruct (ends_line c _).
      * reader_simpl. rewrite bool_decide_eq_false_2 by done. by apply IH.
      * by apply IH.
Qed.

Lemma unquoted_overflow v : forall fs tail,
  has_special v = false -> tail <> "" ->
  (field_limit < N.of_nat (String.length (skip_spaces v)))%N ->
  for_rows body {| state := START_FIELD; field := ""; fields := fs |} acc
    (v +:+ tail)
  = inl CsvError.
Proof.
  induction v as [|c v IH]; intros fs tail Hsp Htail Hlen.
  { cbn in Hlen. unfold field_limit in Hlen. lia. }
  cbn [has_special] in Hsp. apply orb_false_iff in Hsp as [Hc Hv].
  destruct (special_false c Hc) as (Hcomma & Hquote & Hcr & Hlf).
  rewrite append_cons, for_rows_cons. reader_simpl.
  unfold is_newline. rewrite !bool_decide_eq_false_2 by done. cbn [orb].
  rewrite ends_line_inner by (try done; by apply append_nonempty).
  cbn [skip_spaces] in *. destruct (bool_decide (c = SPACE)) eqn:Hspace.
  - by apply IH.
  - rewrite (bool_decide_eq_false_2 (c = COMMA)) by done.
    rewrite add_char_ok by (cbn; unfold field_limit; lia). reader_simpl.
    change ("" +:+ String c "") with (String c "").
    apply in_field_overflow; [done..| |];
      cbn [String.length] in *; unfold field_limit in *; lia.
Qed.

Lemma field_overflow v fs tail :
  ~ fits v -> tail <> "" ->
  for_rows body {| state := START_FIELD; field := ""; fields := fs |} acc
    (join_append v +:+ tail)
  = inl CsvError.
Proof.
  unfold fits, read_back, join_append. intros Hfits Htail.
  destruct (has_special v) eqn:Hsp.
  - rewrite append_cons, for_rows_cons. reader_simpl.
    assert (is_newline DQUOTE = false) as -> by reflexivity.
    rewrite ?bool_decide_eq_true_2 by done.
    rewrite append_assoc, append_cons.
    change ("" +:+ tail) with tail.
    rewrite ends_line_inner by (try done; by apply append_nonempty).
    apply quoted_overflow; [done| |]; cbn; unfold field_limit in *; lia.
  - apply unquoted_overflow; [done..|lia].
Qed.

Lemma fields_overflow (vs : list string) : forall fs rest,
  Exists (fun v => ~ fits v) vs ->
  for_rows body {| state := START_FIELD; field := ""; fields := fs |} acc
    (join vs +:+ lineterminator +:+ rest)
  = inl CsvError.
Proof.
  induction vs as [|v vs IH]; intros fs rest Hbad.
  { by apply Exists_nil in Hbad. }
  cbn [join]. rewrite append_assoc.
  assert (match vs with
          | [] => ""
          | _ :: _ => String COMMA (join vs)
          end +:+ lineterminator +:+ rest <> "") as Htail.
  { destruct vs; [done|]. by rewrite append_cons. }
  destruct (N.le_gt_cases (N.of_nat (String.length (read_back v))) field_limit)
    as [Hv|Hv].
  - apply Exists_cons in Hbad as [Hbad|Hbad]; [by destruct Hbad|].
    destruct vs as [|v' vs]; [by apply Exists_nil in Hbad|].
    rewrite append_cons.
    destruct (field_run v fs
      (String COMMA (join (v' :: vs) +:+ lineterminator +:+ rest)) Hv)
      as (r & Hr & ->); [done|].
    rewrite (end_comma r (read_back v) fs _ Hr) by by apply append_nonempty.
    by apply IH.
  - apply field_overflow; [|done]. unfold fits. lia.
Qed.

Lemma row_overflow (vs : list string) rest :
  Exists (fun v => ~ fits v) vs ->
  for_rows body parse_reset acc (writerow vs +:+ rest) = inl CsvError.
Proof.
  intros Hbad.
  assert (vs <> [""]) as Hne.
  { intros ->. apply Exists_cons in Hbad as [Hbad|Hbad].
    - apply Hbad. by vm_compute.
    - by apply Exists_nil in Hbad. }
  destruct vs as [|v vs]; [by apply Exists_nil in Hbad|].
  assert (writerow (v :: vs) = join (v :: vs) +:+ lineterminator) as ->.
  { destruct v; [|done]. by destruct vs. }
  rewrite append_assoc.
  assert (exists c t,
            join (v :: vs) +:+ lineterminator +:+ rest = String c t /\
            is_newline c = false) as (c & t & Heq & Hc).
  { cbn [join]. rewrite append_assoc. apply join_append_first.
    destruct v; [|by left]. destruct vs; [done|].
    right. rewrite append_cons. by eexists. }
  rewrite Heq, start_record, <- Heq by done.
  by apply fields_overflow.
Qed.

End Rows.

(** A file of records in the writer's format, read by the quiz. *)
Lemma load_rows_run (rows : list (list string)) : forall quotes,
  Forall (Forall fits) rows ->
  for_rows Game.load_row parse_reset (Some quotes) (csv_text rows)
  = match quotes_from quotes ((fun row : list string => read_back <$> row) <$> rows) with
    | inl e => inl e
    | inr quotes' => inr (Some quotes')
    end.
Proof.
  induction rows as [|row rows IH]; intros quotes Hfits; [done|].
  apply Forall_cons in Hfits as [Hrow Hrows].
  cbn [csv_text foldr]. rewrite row_run by done.
  cbn [fmap list_fmap quotes_from Game.load_row].
  destruct (Game.quote_of_row (read_back <$> row)) as [e|quote]; [done|].
  by apply IH.
Qed.

Lemma load_csv_text filename (fs : gmap string string) header
    (rows : list (list string)) :
  fs !! filename = Some (csv_text (header :: rows)) ->
  Forall (Forall fits) (header :: rows) ->
  Game.load_quotes_from_csv filename fs
  = quotes_from [] ((fun row : list string => read_back <$> row) <$> rows).
Proof.
  intros Hfile [Hh Hrows]%Forall_cons. unfold Game.load_quotes_from_csv.
  rewrite Hfile. unfold decode_latin1.
  cbn [csv_text foldr]. rewrite row_run by done. cbn [Game.load_row].
  change (foldr (fun row text => writerow row +:+ text) "" rows)
    with (csv_text rows).
  rewrite load_rows_run by done.
  by destruct (quotes_from [] ((fun row : list string => read_back <$> row) <$> rows)).
Qed.

(** *** UTF-8 and the writer *)

Lemma encode_utf8_append a b :
  encode_utf8 (a +:+ b) = encode_utf8 a +:+ encode_utf8 b.
Proof.
  induction a as [|c a IH]; [done|].
  rewrite append_cons. cbn [encode_utf8]. by rewrite IH, append_assoc.
Qed.

Lemma has_special_append a b :
  has_special (a +:+ b) = has_special a || has_special b.
Proof.
  induction a as [|c a IH]; [done|].
  rewrite append_cons. cbn [has_special]. by rewrite IH, orb_assoc.
Qed.

Lemma double_quotes_append a b :
  double_quotes (a +:+ b) = double_quotes a +:+ double_quotes b.
Proof.
  induction a as [|c a IH]; [done|].
  rewrite append_cons. cbn [double_quotes].
  destruct (bool_decide (c = DQUOTE)); by rewrite IH.
Qed.

(** The bytes of a character: the special characters are their own
    encoding, and no other encoding holds a special character. *)
Lemma utf8_char_special c :
  has_special (utf8_char c) = special c /\
  double_quotes (utf8_char c)
  = (if bool_decide (c = DQUOTE) then String DQUOTE (String DQUOTE "")
     else utf8_char c) /\
  utf8_char c <> "".
Proof. destruct c as [[] [] [] [] [] [] [] []]; by vm_compute. Qed.

Lemma has_special_utf8 v : has_special (encode_utf8 v) = has_special v.
Proof.
  induction v as [|c v IH]; [done|]. cbn [encode_utf8 has_special].
  rewrite has_special_append, IH.
  by destruct (utf8_char_special c) as [-> _].
Qed.

Lemma double_quotes_utf8 v :
  double_quotes (encode_utf8 v) = encode_utf8 (double_quotes v).
Proof.
  induction v as [|c v IH]; [done|]. cbn [encode_utf8 double_quotes].
  rewrite double_quotes_append, IH.
  destruct (utf8_char_special c) as (_ & -> & _).
  destruct (bool_decide (c = DQUOTE)); [|done].
  by cbn [encode_utf8].
Qed.

Lemma join_append_utf8 v :
  encode_utf8 (join_append v) = join_append (encode_utf8 v).
Proof.
  unfold join_append. rewrite has_special_utf8.
  destruct (has_special v); [|done].
  change (String DQUOTE (double_quotes v +:+ String DQUOTE ""))
    with (String DQUOTE "" +:+ double_quotes v +:+ String DQUOTE "").
  rewrite !encode_utf8_append, double_quotes_utf8. done.
Qed.

Lemma join_utf8 (vs : list string) : encode_utf8 (join vs) = join (encode_utf8 <$> vs).
Proof.
  induction vs as [|v vs IH]; [done|]. cbn [join fmap list_fmap].
  rewrite encode_utf8_append, join_append_utf8. f_equal.
  destruct vs as [|v' vs]; [done|].
  change (String COMMA (join (v' :: vs)))
    with (String COMMA "" +:+ join (v' :: vs)).
  by rewrite encode_utf8_append, IH.
Qed.

Lemma encode_utf8_nonempty v : v <> "" -> encode_utf8 v <> "".
Proof.
  destruct v as [|c v]; [done|]. intros _. cbn [encode_utf8].
  destruct (utf8_char_special c) as (_ & _ & Hne).
  destruct (utf8_char c); [done|]. by rewrite append_cons.
Qed.

Lemma writerow_utf8 (vs : list string) :
  encode_utf8 (writerow vs) = writerow (encode_utf8 <$> vs).
Proof.
  assert (forall ws, ws <> [""] -> writerow ws = join ws +:+ lineterminator)
    as Hw.
  { intros [|[|c w] [|w' ws]] H; done. }
  destruct (decide (vs = [""])) as [->|Hne]; [done|].
  rewrite (Hw vs Hne), encode_utf8_append, join_utf8.
  rewrite Hw; [done|].
  destruct vs as [|v [|v' vs]]; [done| |done].
  intros [= H]. destruct v; [done|].
  by apply (encode_utf8_nonempty (String a v)).
Qed.

Lemma csv_text_utf8 (rows : list (list string)) :
  encode_utf8 (csv_text rows) = csv_text ((fun row : list string => encode_utf8 <$> row) <$> rows).
Proof.
  induction rows as [|row rows IH]; [done|]. cbn [csv_text foldr fmap list_fmap].
  rewrite encode_utf8_append, writerow_utf8. f_equal. apply IH.
Qed.

(** *** The writer of the scraper *)

Lemma csv_text_app rows1 rows2 :
  csv_text (rows1 ++ rows2) = csv_text rows1 +:+ csv_text rows2.
Proof.
  induction rows1 as [|row rows1 IH]; [done|]. cbn [csv_text foldr app].
  change (foldr (fun row text => writerow row +:+ text) "" (rows1 ++ rows2))
    with (csv_text (rows1 ++ rows2)).
  by rewrite IH, append_assoc.
Qed.

Lemma dict_to_list_ok record :
  dom record ⊆ list_to_set Sink.fieldnames ->
  dict_to_list Sink.fieldnames record = Some (values record).
Proof. intros H. unfold dict_to_list. by rewrite decide_True. Qed.

Lemma writerows_ok (records : list (gmap string string)) : forall file,
  Forall (fun r : gmap string string =>
            dom r ⊆ list_to_set Sink.fieldnames) records ->
  writerows Sink.fieldnames records file
  = (file +:+ csv_text (values <$> records), None).
Proof.
  induction records as [|r records IH]; intros file Hok.
  { cbn. by rewrite append_nil_r. }
  apply Forall_cons in Hok as [Hr Hok]. cbn [writerows].
  rewrite dict_to_list_ok, IH by done.
  cbn [fmap list_fmap csv_text foldr]. by rewrite append_assoc.
Qed.

(** *** Converting rows *)

Lemma quote_of_row_long row :
  6 <= length row -> exists quote, Game.quote_of_row row = inr quote.
Proof.
  destruct row as [|? [|? [|? [|? [|? [|? ?]]]]]]; cbn; try lia.
  intros _. by eexists.
Qed.

Lemma quote_of_row_short row :
  length row < 6 -> Game.quote_of_row row = inl IndexError.
Proof.
  destruct row as [|? [|? [|? [|? [|? [|? ?]]]]]]; cbn; try done. lia.
Qed.

Lemma quotes_from_long (rows : list (list string)) : forall quotes,
  Forall (fun row => 6 <= length row) rows ->
  exists quotes',
    quotes_from quotes rows = inr quotes' /\
    length quotes' = length quotes + length rows.
Proof.
  induction rows as [|row rows IH]; intros quotes Hlong.
  { exists quotes. split; [done|cbn; lia]. }
  apply Forall_cons in Hlong as [Hrow Hrows]. cbn [quotes_from].
  destruct (quote_of_row_long row Hrow) as [quote ->].
  destruct (IH (quotes ++ [quote]) Hrows) as (quotes' & -> & Hlen).
  exists quotes'. split; [done|]. rewrite Hlen, length_app. cbn. lia.
Qed.

Lemma quotes_from_short (rows : list (list string)) : forall quotes,
  Exists (fun row => length row < 6) rows ->
  quotes_from quotes rows = inl IndexError.
Proof.
  induction rows as [|row rows IH]; intros quotes Hshort.
  { by apply Exists_nil in Hshort. }
  cbn [quotes_from]. destruct (decide (length row < 6)) as [Hrow|Hrow].
  { by rewrite quote_of_row_short. }
  apply Exists_cons in Hshort as [?|Hshort]; [done|].
  destruct (quote_of_row_long row) as [quote ->]; [lia|]. by apply IH.
Qed.

(** *** Values that the exchange leaves alone *)

Lemma encode_utf8_ascii v : is_ascii v = true -> encode_utf8 v = v.
Proof.
  induction v as [|c v IH]; [done|]. cbn [is_ascii encode_utf8].
  intros [Hc Hv]%andb_true_iff. unfold utf8_char. rewrite Hc, IH by done.
  done.
Qed.

Lemma length_encode_utf8 v :
  String.length v <= String.length (encode_utf8 v) /\
  (String.length (encode_utf8 v) = String.length v -> is_ascii v = true).
Proof.
  induction v as [|c v [IH1 IH2]]; [done|]. cbn [encode_utf8 is_ascii].
  rewrite length_append. unfold utf8_char.
  destruct (nat_of_ascii c <? 128); cbn [String.length andb]; split; try lia.
  intros H. apply IH2. lia.
Qed.

Lemma skip_spaces_no_blank v : String.prefix " " v = false -> skip_spaces v = v.
Proof.
  destruct v as [|c v]; [done|]. cbn [String.prefix skip_spaces].
  destruct (ascii_dec " " c) as [<-|Hc]; [by destruct v|].
  intros _. by rewrite bool_decide_eq_false_2.
Qed.

Lemma skip_spaces_first v : String.prefix " " (skip_spaces v) = false.
Proof.
  induction v as [|c v IH]; [done|]. cbn [skip_spaces].
  destruct (bool_decide (c = SPACE)) eqn:Hc; [done|].
  apply bool_decide_eq_false in Hc. cbn [String.prefix].
  by destruct (ascii_dec " " c) as [<-|?].
Qed.

Lemma utf8_char_blank c rest rest' :
  String.prefix " " (utf8_char c +:+ rest) = String.prefix " " (String c rest').
Proof.
  assert (utf8_char c = String c "" \/
          exists x y, utf8_char c = String x (String y "") /\ x <> " "%char
                      /\ c <> " "%char) as [->|(x & y & -> & Hx & Hc)].
  { destruct c as [[] [] [] [] [] [] [] []];
      first [by left | right; by eexists _, _]. }
  - rewrite append_cons. cbn [String.prefix].
    destruct (ascii_dec " " c); [|done]. by destruct rest, rest'.
  - rewrite !append_cons. cbn [String.prefix].
    destruct (ascii_dec " " x); [done|]. by destruct (ascii_dec " " c).
Qed.

Lemma read_back_plain v :
  has_special v = true \/ String.prefix " " v = false -> read_back v = v.
Proof.
  unfold read_back. intros [->|H]; [done|].
  destruct (has_special v); [done|]. by apply skip_spaces_no_blank.
Qed.

Lemma received_unchanged v :
  received v = v <->
  is_ascii v = true /\ (has_special v = true \/ String.prefix " " v = false).
Proof.
  unfold received. split.
  - intros Heq.
    assert (has_special v = true \/ String.prefix " " v = false) as Hq.
    { destruct (has_special v) eqn:Hsp; [by left|right].
      unfold read_back in Heq. rewrite has_special_utf8, Hsp in Heq.
      rewrite <- Heq at 1. apply skip_spaces_first. }
    split; [|done].
    apply length_encode_utf8.
    assert (read_back (encode_utf8 v) = encode_utf8 v) as Hrb.
    { apply read_back_plain. rewrite has_special_utf8.
      destruct Hq as [?|Hq]; [by left|right].
      destruct v as [|c v]; [done|]. cbn [encode_utf8].
      by rewrite (utf8_char_blank c _ v). }
    by rewrite <- Hrb, Heq.
  - intros [Hascii Hq]. rewrite encode_utf8_ascii by done.
    by apply read_back_plain.
Qed.

(** *** The file of the scraper *)

Lemma writerows_bad (good : list (gmap string string)) bad more : forall file,
  Forall (fun r : gmap string string =>
            dom r ⊆ list_to_set Sink.fieldnames) good ->
  ~ dom bad ⊆ list_to_set Sink.fieldnames ->
  writerows Sink.fieldnames (good ++ bad :: more) file
  = (file +:+ csv_text (values <$> good), Some ValueError).
Proof.
  induction good as [|r good IH]; intros file Hok Hbad.
  { cbn [app writerows]. unfold dict_to_list. rewrite decide_False by done.
    cbn. by rewrite append_nil_r. }
  apply Forall_cons in Hok as [Hr Hok]. cbn [app writerows].
  rewrite dict_to_list_ok, IH by done.
  cbn [fmap list_fmap csv_text foldr]. by rewrite append_assoc.
Qed.

Lemma write_ok (quotes : list (gmap string string)) filename fs :
  Forall (fun r : gmap string string =>
            dom r ⊆ list_to_set Sink.fieldnames) quotes ->
  Sink.write_quotes_to_csv quotes filename fs
  = (<[filename := encode_utf8
         (csv_text (Sink.fieldnames :: (values <$> quotes)))]> fs, None).
Proof.
  intros Hok. unfold Sink.write_quotes_to_csv, writeheader.
  by rewrite writerows_ok.
Qed.

Lemma header_fits : Forall fits (encode_utf8 <$> Sink.fieldnames).
Proof. repeat constructor; by vm_compute. Qed.

Lemma quotes_from_records (quotes : list (gmap string string)) : forall acc,
  quotes_from acc
    ((fun row : list string => read_back <$> row)
       <$> ((fun row : list string => encode_utf8 <$> row)
              <$> (values <$> quotes)))
  = inr (acc ++ (quote_of_record <$> quotes)).
Proof.
  induction quotes as [|q quotes IH]; intros acc.
  { cbn. by rewrite app_nil_r. }
  cbn [fmap list_fmap quotes_from].
  assert (Game.quote_of_row (read_back <$> (encode_utf8 <$> values q))
          = inr (quote_of_record q)) as -> by reflexivity.
  rewrite IH. by rewrite <- app_assoc.
Qed.

Lemma load_written (quotes : list (gmap string string)) filename fs :
  Forall (fun q : gmap string string =>
            dom q ⊆ list_to_set Sink.fieldnames /\
            Forall fits (encode_utf8 <$> values q)) quotes ->
  Game.load_quotes_from_csv filename
    (Sink.write_quotes_to_csv quotes filename fs).1
  = inr (quote_of_record <$> quotes).
Proof.
  intros Hok. rewrite write_ok by (eapply Forall_impl; [exact Hok|]; by intros ? []).
  cbn [fst].
  rewrite (load_csv_text filename _ (encode_utf8 <$> Sink.fieldnames)
             ((fun row : list string => encode_utf8 <$> row)
                <$> (values <$> quotes))).
  - apply (quotes_from_records quotes []).
  - by rewrite lookup_insert_eq, csv_text_utf8.
  - apply Forall_cons. split; [apply header_fits|].
    rewrite !Forall_fmap. eapply Forall_impl; [exact Hok|]. by intros ? [].
Qed.

Lemma load_rows_overflow (good : list (gmap string string)) bad
    (more : list (gmap string string)) : forall acc,
  Forall (fun q : gmap string string =>
            Forall fits (encode_utf8 <$> values q)) good ->
  Exists (fun v => ~ fits v) (encode_utf8 <$> values bad) ->
  for_rows Game.load_row parse_reset (Some acc)
    (csv_text ((fun row : list string => encode_utf8 <$> row)
                 <$> (values <$> (good ++ bad :: more))))
  = inl CsvError.
Proof.
  induction good as [|q good IH]; intros acc Hgood Hbad.
  - cbn [app fmap list_fmap csv_text foldr]. by apply row_overflow.
  - apply Forall_cons in Hgood as [Hq Hgood].
    cbn [app fmap list_fmap csv_text foldr]. rewrite row_run by done.
    assert (Game.load_row (Some acc) (read_back <$> (encode_utf8 <$> values q))
            = inr (Some (acc ++ [quote_of_record q]))) as -> by reflexivity.
    by apply IH.
Qed.

End CsvFacts.

(** ** Facts about the quiz *)
Module GameFacts.
Import PyStr Csv Game Exchange PyStrFacts.

Lemma bind_done {A B} (m : G A) (k : A -> G B) c a c1 :
  m c = (Done a, c1) -> bind m k c = k a c1.
Proof. unfold bind. by intros ->. Qed.

(** No word of [str.split()] is empty. *)
Lemma words_from_nonempty s : forall cur,
  Forall (fun w => w <> "") (words_from cur s).
Proof.
  induction s as [|c s IH]; intros cur; cbn [words_from].
  - destruct cur; by repeat constructor.
  - destruct (isspace c).
    + destruct cur; [apply IH|]. constructor; [done|apply IH].
    + apply IH.
Qed.

Lemma initials_some name :
  words name <> [] -> is_Some (initials name).
Proof.
  intros Hne. unfold initials.
  pose proof (words_from_nonempty name "") as Hall.
  fold (words name) in Hall.
  destruct (words name) as [|w ws] eqn:E; [done|].
  assert (exists a, first_letter w = Some a) as [a Ha].
  { apply Forall_cons in Hall as [Hw _]. destruct w; [done|]. by eexists. }
  assert (exists z, last (w :: ws) = Some z /\ z <> "") as (z & Hz & Hzne).
  { destruct (last (w :: ws)) as [z|] eqn:El.
    - exists z. split; [done|].
      apply last_Some in El as [l' El]. rewrite El in Hall.
      by apply Forall_app in Hall as [_ [? _]%Forall_cons].
    - by apply last_None in El. }
  cbn [head]. rewrite Hz. cbn. rewrite Ha.
  destruct z; [done|]. cbn. by eexists.
Qed.

Lemma initials_none name : words name = [] -> initials name = None.
Proof. unfold initials. by intros ->. Qed.

Section Play.
Variable choice : nat -> nat.

(** One turn of the guessing loop. *)
Lemma guessing_eof quote n h out d :
  guessing quote (S n) h {| stdin := []; stdout := out; draws := d |}
  = (Raise EOFError, {| stdin := []; stdout := out; draws := d |}).
Proof. reflexivity. Qed.

Lemma guessing_right quote n h guess rest out d :
  lower (strip guess) = lower (author quote) ->
  guessing quote (S n) h {| stdin := guess :: rest; stdout := out; draws := d |}
  = (Done (S n),
     {| stdin := rest; stdout := out ++ ["Congratulations! You won!"];
        draws := d |}).
Proof.
  intros H. cbn [guessing]. unfold bind, input. cbn [stdin stdout draws].
  by rewrite bool_decide_eq_true_2.
Qed.

Lemma guessing_wrong quote n h guess rest out d :
  wrong quote guess ->
  guessing quote (S n) h {| stdin := guess :: rest; stdout := out; draws := d |}
  = bind (hint quote h) (fun _ => guessing quote n (S h))
      {| stdin := rest;
         stdout := out ++ ["Incorrect. You have " +:+ pretty n
                             +:+ " guesses remaining."];
         draws := d |}.
Proof.
  intros H. cbn [guessing]. unfold bind at 1, input. cbn [stdin stdout draws].
  by rewrite bool_decide_eq_false_2.
Qed.

(** A hint reads nothing and draws nothing. *)
Lemma hint_console quote h c :
  let c' := (hint quote h c).2 in
  stdin c' = stdin c /\ draws c' = draws c.
Proof.
  destruct h as [|[|[|h]]]; cbn [hint]; try done.
  destruct (head (words (author quote)) ≫= first_letter);
    [destruct (last (words (author quote)) ≫= first_letter)|]; done.
Qed.

Lemma hint_initials quote a b c :
  initials (author quote) = Some (a, b) ->
  hint quote 1 c
  = print ("Hint: The author's initials are " +:+ a +:+ "." +:+ b +:+ ".") c.
Proof.
  unfold initials. cbn [hint].
  destruct (head (words (author quote)) ≫= first_letter);
    [destruct (last (words (author quote)) ≫= first_letter)|]; [|done..].
  by intros [= -> ->].
Qed.

Lemma hint_no_initials quote c :
  initials (author quote) = None -> hint quote 1 c = (Raise IndexError, c).
Proof.
  unfold initials. cbn [hint].
  by destruct (head (words (author quote)) ≫= first_letter);
    [destruct (last (words (author quote)) ≫= first_letter)|].
Qed.

(** With an author of at least one word every hint is given. *)
Lemma hint_done quote h inp out d :
  words (author quote) <> [] ->
  exists out',
    hint quote h {| stdin := inp; stdout := out; draws := d |}
    = (Done tt, {| stdin := inp; stdout := out ++ out'; draws := d |}).
Proof.
  intros Hw. destruct (initials_some _ Hw) as [[a b] Hab].
  destruct h as [|[|[|h]]].
  - by eexists [_].
  - rewrite (hint_initials _ a b) by done. by eexists [_].
  - by eexists [_].
  - exists []. cbn. by rewrite app_nil_r.
Qed.

(** Wrong guesses use up guesses, one each. *)
Lemma guessing_wrongs quote wrongs : forall n h tail out d,
  Forall (wrong quote) wrongs -> length wrongs <= n ->
  words (author quote) <> [] ->
  exists out',
    guessing quote n h
      {| stdin := wrongs ++ tail; stdout := out; draws := d |}
    = guessing quote (n - length wrongs) (h + length wrongs)
        {| stdin := tail; stdout := out ++ out'; draws := d |}.
Proof.
  induction wrongs as [|g wrongs IH]; intros n h tail out d Hw Hlen Hne.
  { exists []. cbn [app length]. by rewrite app_nil_r, Nat.sub_0_r, Nat.add_0_r. }
  apply Forall_cons in Hw as [Hg Hw]. cbn [length] in Hlen.
  destruct n as [|n]; [lia|].
  cbn [app]. rewrite guessing_wrong by done. unfold bind.
  set (line := "Incorrect. You have " +:+ pretty n +:+ " guesses remaining.").
  destruct (hint_done quote h (wrongs ++ tail) (out ++ [line]) d Hne)
    as [out1 ->].
  destruct (IH n (S h) tail ((out ++ [line]) ++ out1) d Hw ltac:(lia) Hne)
    as [out2 ->].
  exists ([line] ++ out1 ++ out2). cbn [length].
  rewrite <- !app_assoc.
  replace (S n - S (length wrongs)) with (n - length wrongs) by lia.
  by replace (h + S (length wrongs)) with (S h + length wrongs) by lia.
Qed.

(** The loop reads at most as many lines as there are guesses left. *)
Lemma guessing_reads quote n : forall h c,
  exists used,
    stdin c = used ++ stdin (guessing quote n h c).2 /\ length used <= n.
Proof.
  induction n as [|n IH]; intros h [inp out d]; [by exists []|].
  destruct inp as [|guess rest]; [exists []; split; [done|cbn; lia]|].
  destruct (decide (lower (strip guess) = lower (author quote))) as [Heq|Hne].
  - rewrite guessing_right by done. exists [guess]. split; [done|cbn; lia].
  - rewrite guessing_wrong by done. unfold bind.
    set (c1 := {| stdin := rest; stdout := _; draws := d |}).
    destruct (hint_console quote h c1) as [Hin _].
    destruct (hint quote h c1) as [[[]|e|] c2]; cbn [snd] in *.
    + destruct (IH (S h) c2) as (used & Hused & Hlen).
      exists (guess :: used). split; [|cbn; lia].
      cbn [stdin app]. f_equal. rewrite <- Hused, Hin. done.
    + exists [guess]. split; [|cbn; lia]. cbn. by rewrite Hin.
    + exists [guess]. split; [|cbn; lia]. cbn. by rewrite Hin.
Qed.

(** A turn that ends normally has read a line. *)
Lemma guessing_done_reads quote n h c r c' :
  guessing quote (S n) h c = (Done r, c') ->
  length (stdin c') < length (stdin c).
Proof.
  intros Hrun.
  destruct c as [[|guess rest] out d]; [by rewrite guessing_eof in Hrun|].
  destruct (decide (lower (strip guess) = lower (author quote))) as [Heq|Hne].
  - rewrite guessing_right in Hrun by done. injection Hrun as _ <-. cbn. lia.
  - rewrite guessing_wrong in Hrun by done. unfold bind in Hrun.
    set (c1 := {| stdin := rest; stdout := _; draws := d |}) in Hrun.
    destruct (hint_console quote h c1) as [Hin _].
    destruct (hint quote h c1) as [[[]|e|] c2]; cbn [snd] in *; [|done..].
    destruct (guessing_reads quote n (S h) c2) as (used2 & Hu2 & _).
    rewrite Hrun in Hu2. cbn [snd] in Hu2.
    rewrite Hin in Hu2. subst c1. cbn [stdin] in Hu2 |- *.
    rewrite Hu2. cbn [length]. rewrite length_app. lia.
Qed.

(** The game ends with its input: more rounds than half the lines left
    are never begun. *)
Lemma play_game_terminates fuel : forall quotes c,
  length (stdin c) < 2 * fuel ->
  (play_game choice fuel quotes c).1 <> OutOfFuel.
Proof.
  induction fuel as [|fuel IH]; intros quotes c Hlen; [lia|].
  cbn [play_game]. unfold bind at 1, get_random_quote.
  destruct (quotes !! _) as [quote|]; [|done].
  unfold bind at 1, print at 1. unfold bind at 1, print at 1.
  unfold bind at 1, print at 1. cbn [stdin stdout draws].
  unfold bind at 1.
  set (c0 := {| stdin := stdin c; stdout := _; draws := S (draws c) |}).
  destruct (guessing quote MAX_GUESSES 0 c0) as [[r|e|] c1] eqn:Hg;
    [|done|].
  2:{ (* the loop itself never runs out of fuel *)
      exfalso. clear -Hg. revert Hg. generalize 0 at 1. generalize c0.
      unfold MAX_GUESSES. generalize 4.
      induction n as [|n IHn]; intros [inp out d] h; [done|].
      destruct inp as [|guess rest]; [done|].
      destruct (decide (lower (strip guess) = lower (author quote))).
      - by rewrite guessing_right.
      - rewrite guessing_wrong by done. unfold bind.
        destruct (hint quote h _) as [[[]|e|] c2] eqn:Hh; [apply IHn|done|].
        destruct h as [|[|[|h]]]; cbn [hint] in Hh; try done.
        by destruct (head (words (author quote)) ≫= first_letter);
          [destruct (last (words (author quote)) ≫= first_letter)|]. }
  apply guessing_done_reads in Hg. cbn [stdin c0] in Hg.
  unfold bind at 1.
  assert (forall c2, exists c3,
            (if bool_decide (r = 0)
             then print ("Game over! The correct answer was "
                           +:+ author quote +:+ ".")
             else ret tt) c2 = (Done tt, c3) /\ stdin c3 = stdin c2)
    as Hover.
  { intros c2. destruct (bool_decide (r = 0)); by eexists. }
  destruct (Hover c1) as (c3 & -> & Hin3).
  unfold bind at 1, input. cbn [stdin stdout draws].
  destruct (stdin c3) as [|answer rest] eqn:E3; [done|].
  destruct (bool_decide (lower answer = "y")); [|done].
  apply IH. cbn [stdin]. rewrite <- Hin3 in Hg. cbn [length] in Hg. lia.
Qed.

End Play.
End GameFacts.

(** ** Facts about the log of a crawl *)
Module TraceFacts.
Import Soup Net Scraper Reference Exchange NetFacts.

Lemma continues_refl w : continues w w.
Proof. exists [], []. rewrite !app_nil_r. repeat split; [constructor|cbn; lia]. Qed.

Lemma continues_trans w1 w2 w3 :
  continues w1 w2 -> continues w2 w3 -> continues w1 w3.
Proof.
  intros (g1 & n1 & Hg1 & Hn1 & Hb1 & Hl1) (g2 & n2 & Hg2 & Hn2 & Hb2 & Hl2).
  exists (g1 ++ g2), (n1 ++ n2).
  rewrite Hg2, Hg1, Hn2, Hn1, <- !app_assoc, Forall_app, !length_app.
  repeat split; [done..|lia].
Qed.

Lemma backoff_bounds a : 1 <= a -> (4000 <= backoff a <= 10000)%Z.
Proof.
  intros Ha. unfold backoff.
  assert (2 ^ 1 <= 2 ^ Z.of_nat a)%Z by (apply Z.pow_le_mono_r; lia). lia.
Qed.

Section Server.
Variable server : nat -> string -> option Tag.
Variable resolve : string -> string -> string.

Lemma call_continues url : forall fuel a w,
  1 <= a ->
  continues w (call retry_args (session_get server url) fuel a w).2.
Proof.
  induction fuel as [|fuel IH]; intros a w Ha; [apply continues_refl|].
  cbn [call]. unfold session_get at 1.
  destruct (server (length (requests w)) url) as [d|].
  - exists [url], []. cbn [snd requests sleeps]. rewrite app_nil_r.
    repeat split; [constructor|cbn; lia].
  - cbn [stop retry_args stop_max_attempt_number]. unfold bind, time_sleep.
    cbn [requests sleeps].
    eapply continues_trans; [|apply IH; lia].
    exists [url], [wait retry_args a]. cbn [requests sleeps].
    split; [done|]. split; [done|]. split; [|cbn; lia].
    apply Forall_singleton. rewrite wait_backoff. by apply backoff_bounds.
Qed.

Lemma make_request_continues fuel url w :
  continues w (make_request server fuel url w).2.
Proof. by apply call_continues. Qed.

Lemma scrape_author_info_continues fuel url w :
  continues w (scrape_author_info server fuel url w).2.
Proof.
  unfold scrape_author_info, bind.
  pose proof (make_request_continues fuel url w) as H.
  by destruct (make_request server fuel url w) as [[r|e|] w1].
Qed.

Lemma for_elements_continues fuel els : forall quotes w,
  continues w (for_elements server resolve fuel els quotes w).2.
Proof.
  induction els as [|el els IH]; intros quotes w; [apply continues_refl|].
  cbn [for_elements]. unfold bind at 1.
  pose proof (scrape_author_info_continues fuel
    (urljoin resolve BASE_URL (get_href el span_a)) w) as H.
  destruct (scrape_author_info server fuel _ w) as [[info|e|] w1];
    cbn [snd] in *; [|done..].
  eapply continues_trans; [exact H|apply IH].
Qed.

Lemma for_pages_continues fuel url pages : forall quotes w,
  continues w (for_pages server resolve fuel url pages quotes w).2.
Proof.
  induction pages as [|page pages IH]; intros quotes w; [apply continues_refl|].
  cbn [for_pages]. unfold bind at 1.
  pose proof (make_request_continues fuel (page_url url page) w) as H.
  destruct (make_request server fuel _ w) as [[r|e|] w1];
    cbn [snd] in *; [|done..].
  unfold bind at 1.
  pose proof (for_elements_continues fuel
    (select (BeautifulSoup r) div_quote) quotes w1) as H1.
  destruct (for_elements server resolve fuel _ quotes w1) as [[qs|e|] w2];
    cbn [snd] in *; [|by eapply continues_trans..].
  eapply continues_trans; [exact H|].
  eapply continues_trans; [exact H1|apply IH].
Qed.

(** A crawl during which every GET is answered at once. *)
Section Up.
Variable site : string -> Tag.
Hypothesis Hup : forall n url, server n url = Some (site url).

Lemma make_request_up fuel url w :
  0 < fuel ->
  make_request server fuel url w
  = (Returned (site url),
     {| requests := requests w ++ [url]; sleeps := sleeps w |}).
Proof.
  intros Hfuel. destruct fuel as [|fuel]; [lia|].
  unfold make_request. cbn [call]. unfold session_get. by rewrite Hup.
Qed.

Lemma for_elements_up fuel els : forall quotes w,
  0 < fuel ->
  for_elements server resolve fuel els quotes w
  = (Returned (quotes ++ (record_of site resolve <$> els)),
     {| requests := requests w ++
          ((fun el => urljoin resolve BASE_URL (get_href el span_a)) <$> els);
        sleeps := sleeps w |}).
Proof.
  induction els as [|el els IH]; intros quotes w Hfuel.
  { cbn. rewrite !app_nil_r. by destruct w. }
  cbn [for_elements]. unfold scrape_author_info, bind.
  rewrite make_request_up by done. unfold ret.
  rewrite IH by done. cbn [requests sleeps fmap list_fmap].
  by rewrite <- !app_assoc.
Qed.

Lemma for_pages_up fuel url pages : forall quotes w,
  0 < fuel ->
  for_pages server resolve fuel url pages quotes w
  = (Returned (quotes ++ concat (page_records site resolve url <$> pages)),
     {| requests := requests w ++
          concat ((fun page =>
                     page_url url page ::
                     ((fun el => urljoin resolve BASE_URL (get_href el span_a))
                        <$> entries site url page)) <$> pages);
        sleeps := sleeps w |}).
Proof.
  induction pages as [|page pages IH]; intros quotes w Hfuel.
  { cbn. rewrite !app_nil_r. by destruct w. }
  cbn [for_pages]. unfold bind at 1. rewrite make_request_up by done.
  unfold bind at 1. rewrite for_elements_up by done.
  rewrite IH by done. cbn [requests sleeps fmap list_fmap concat].
  unfold page_records at 2, entries at 2.
  by rewrite <- !app_assoc.
Qed.

End Up.
End Server.
End TraceFacts.

(** ** Further properties: the crawl *)
Module CrawlExtras.
Import PyStr Soup Net Scraper Reference Samples Exchange.
Import PyStrFacts NetFacts CrawlFacts TraceFacts.

(** X1: whatever the server answers and however long the crawl is
    followed, the crawl only adds to its log of GETs and sleeps; every
    sleep it adds lasts between 4 and 10 seconds, and it adds at most one
    sleep per GET. *)
Theorem X1_crawl_log_polite server resolve fuel url num_pages w :
  continues w (scrape_quotes server resolve fuel url num_pages w).2.
Proof. apply for_pages_continues. Qed.



(** X3: a "Born:" paragraph whose text has no colon followed by a blank
    (as in "Born:1977") gives neither a birth date nor a birthplace; the
    record's two columns are then empty. *)
Theorem X3_born_without_separator soup born_info qt a h :
  select_one soup p_born = Some born_info ->
  find ": " (Soup.text born_info) = None ->
  let info := parse_author_info soup in
  info !! "birthdate" = None /\ info !! "birthplace" = None /\
  quote_info qt a h info !! "Birthdate" = Some "" /\
  quote_info qt a h info !! "Birthplace" = Some "".
Proof.
  intros Hsel Hfind info. subst info. unfold parse_author_info, quote_info.
  rewrite Hsel, (split_absent ": " _ Hfind). by simplify_map_eq.
Qed.

Lemma X3_born_without_separator_witness :
  let soup := BeautifulSoup (about "Born:1977" "") in
  let info := parse_author_info soup in
  info !! "birthdate" = None /\ info !! "birthplace" = None /\
  quote_info "q" "Ann" "" info !! "Birthdate" = Some "" /\
  quote_info "q" "Ann" "" info !! "Birthplace" = Some "".
Proof.
  intros soup info.
  apply (X3_born_without_separator soup
           {| parents := [about "Born:1977" ""];
              node := born_paragraph "Born:1977" |} "q" "Ann" "");
    vm_compute; reflexivity.
Defined.

End CrawlExtras.

(** ** Further properties: the csv file between the two programs *)
Module ExchangeExtras.
Import PyStr Csv Sink Game Exchange Exhibits.
Import PyStrFacts CrawlFacts CsvFacts.

Ltac by_decision :=
  lazymatch goal with
  | |- ~ ?P => apply (proj1 (bool_decide_eq_false P)); vm_compute; reflexivity
  | |- ?P => apply (bool_decide_unpack P); vm_compute; exact I
  end.



(** X5: a record with a key that is no column makes the writer raise
    [ValueError]; the file is then left with the header row and the rows
    of the records before that one, and the later records are lost. *)
Theorem X5_write_stops_at_unknown_key
    (good : list (gmap string string)) bad more filename fs :
  Forall (fun r : gmap string string => dom r ⊆ list_to_set fieldnames) good ->
  ~ dom bad ⊆ list_to_set fieldnames ->
  write_quotes_to_csv (good ++ bad :: more) filename fs
  = (<[filename :=
         encode_utf8 (csv_text (fieldnames :: (values <$> good)))]> fs,
     Some ValueError).
Proof.
  intros Hgood Hbad. unfold write_quotes_to_csv, writeheader.
  by rewrite writerows_bad.
Qed.

Lemma X5_write_stops_at_unknown_key_witness :
  write_quotes_to_csv ([record_ann] ++ record_tagged :: [record_bare])
    "quotes.csv" ∅
  = (<["quotes.csv" :=
         encode_utf8 (csv_text (fieldnames :: (values <$> [record_ann])))]> ∅,
     Some ValueError).
Proof.
  apply (X5_write_stops_at_unknown_key
           [record_ann] record_tagged [record_bare] "quotes.csv" ∅).
  - repeat constructor. by_decision.
  - by_decision.
Defined.

(** X6: a file in the writer's format, read by the quiz: the first record
    is skipped as the header; every further record gives a quote from
    its first six fields, each without its leading blanks unless it was
    quoted, and fields beyond the sixth are ignored; a record with fewer
    than six fields makes the load raise [IndexError]. *)
Theorem X6_load_rows filename (fs : gmap string string) header
    (rows : list (list string)) :
  fs !! filename = Some (csv_text (header :: rows)) ->
  Forall (Forall fits) (header :: rows) ->
  let loaded := load_quotes_from_csv filename fs in
  loaded = quotes_from [] ((fun row : list string => read_back <$> row) <$> rows)
  /\ (Forall (fun row => 6 <= length row) rows ->
      exists quotes, loaded = inr quotes /\ length quotes = length rows)
  /\ (Exists (fun row => length row < 6) rows -> loaded = inl IndexError).
Proof.
  intros Hfile Hfits loaded. subst loaded.
  rewrite (load_csv_text filename fs header rows Hfile Hfits).
  split; [done|split].
  - intros Hlong.
    destruct (quotes_from_long
                ((fun row : list string => read_back <$> row) <$> rows) [])
      as (quotes & -> & Hlen).
    { rewrite Forall_fmap. eapply Forall_impl; [exact Hlong|].
      intros row Hrow. cbn. by rewrite length_fmap. }
    exists quotes. split; [done|]. by rewrite Hlen, length_fmap.
  - intros Hshort. apply quotes_from_short.
    rewrite Exists_fmap. eapply Exists_impl; [exact Hshort|].
    intros row Hrow. cbn. by rewrite length_fmap.
Qed.

Lemma X6_load_rows_witness :
  load_quotes_from_csv "quotes.csv"
    {[ "quotes.csv" :=
         csv_text [["h"]; ["a"; " b"; "c,"; "d"; "e"; "f"; "g"]] ]}
  = quotes_from []
      ((fun row : list string => read_back <$> row)
         <$> [["a"; " b"; "c,"; "d"; "e"; "f"; "g"]]).
Proof.
  apply (X6_load_rows "quotes.csv"
           {[ "quotes.csv" :=
                csv_text [["h"]; ["a"; " b"; "c,"; "d"; "e"; "f"; "g"]] ]}
           ["h"] [["a"; " b"; "c,"; "d"; "e"; "f"; "g"]]).
  - reflexivity.
  - repeat constructor; by vm_compute.
Defined.

(** X7: what the quiz loads from the file that the scraper wrote.  For
    records with no key outside the columns (a missing column counts as
    empty) and fields within the reader's size limit, the load returns
    one quote per record, in order, with text, author, bio, birthdate,
    birthplace and description taken from the columns Quote, Author,
    Bio Href, Birthdate, Birthplace and Description; each value arrives
    as its UTF-8 bytes read as Latin-1, without its leading blanks unless
    the writer quoted it. *)
Theorem X7_load_after_write (quotes : list (gmap string string)) filename fs :
  Forall (fun q : gmap string string =>
            dom q ⊆ list_to_set fieldnames /\
            Forall fits (encode_utf8 <$> values q)) quotes ->
  (write_quotes_to_csv quotes filename fs).2 = None /\
  load_quotes_from_csv filename (write_quotes_to_csv quotes filename fs).1
  = inr (quote_of_record <$> quotes).
Proof.
  intros Hok. split; [|by apply load_written].
  rewrite write_ok; [done|].
  eapply Forall_impl; [exact Hok|]. by intros ? [].
Qed.

Lemma X7_load_after_write_witness :
  load_quotes_from_csv "quotes.csv"
    (write_quotes_to_csv [record_ann; record_bare] "quotes.csv" ∅).1
  = inr (quote_of_record <$> [record_ann; record_bare]).
Proof.
  apply (X7_load_after_write [record_ann; record_bare] "quotes.csv" ∅).
  repeat (constructor; [split|]);
    try by_decision;
    try (repeat constructor; by vm_compute).
Defined.

(** X8: for records with no key outside the columns and fields within
    the size limit, the quiz loads exactly the values that were in the
    records if and only if every value has only characters below 128 and
    either was quoted by the writer (it holds a comma, a quote, a
    carriage return or a line feed) or does not begin with a blank. *)
Theorem X8_unchanged_iff (quotes : list (gmap string string)) filename fs :
  Forall (fun q : gmap string string =>
            dom q ⊆ list_to_set fieldnames /\
            Forall fits (encode_utf8 <$> values q)) quotes ->
  load_quotes_from_csv filename (write_quotes_to_csv quotes filename fs).1
    = inr (quote_as_written <$> quotes)
  <-> Forall (fun q : gmap string string => Forall survives (values q)) quotes.
Proof.
  intros Hok. rewrite load_written by done.
  assert (forall q : gmap string string,
            quote_of_record q = quote_as_written q
            <-> Forall survives (values q)) as Hq.
  { intros q. unfold values, fieldnames. cbn [fmap list_fmap].
    rewrite !Forall_cons, Forall_nil. unfold survives.
    rewrite <- !received_unchanged.
    unfold quote_of_record, quote_as_written. split.
    - intros [= H1 H2 H3 H4 H5 H6]. by repeat split.
    - intros (-> & -> & -> & -> & -> & -> & _). done. }
  split.
  - intros [= Heq]. apply Forall_fmap_ext in Heq.
    eapply Forall_impl; [exact Heq|]. intros q. apply Hq.
  - intros Hall. f_equal. apply Forall_fmap_ext.
    eapply Forall_impl; [exact Hall|]. intros q. apply Hq.
Qed.

Lemma X8_unchanged_iff_witness :
  load_quotes_from_csv "quotes.csv"
    (write_quotes_to_csv [record_ann] "quotes.csv" ∅).1
  <> inr (quote_as_written <$> [record_ann]).
Proof.
  intros H.
  apply (proj1 (X8_unchanged_iff [record_ann] "quotes.csv" ∅
    ltac:(repeat (constructor; [split|]); try by_decision;
          try (repeat constructor; by vm_compute)))) in H.
  apply Forall_cons in H as [H _].
  unfold values, fieldnames in H. cbn [fmap list_fmap] in H.
  do 5 apply Forall_cons in H as [_ H].
  apply Forall_cons in H as [[_ [H|H]] _]; discriminate H.
Defined.

(** X9: round trip.  When every value of every record is plain (only
    characters below 128, no leading blank unless quoted, within the size
    limit), the quiz loads exactly the values of the records, in the
    order of the records. *)
Theorem X9_load_after_write_plain
    (quotes : list (gmap string string)) filename fs :
  Forall (fun q : gmap string string =>
            dom q ⊆ list_to_set fieldnames /\ Forall plain (values q)) quotes ->
  load_quotes_from_csv filename (write_quotes_to_csv quotes filename fs).1
  = inr (quote_as_written <$> quotes).
Proof.
  intros Hok.
  assert (forall v, plain v ->
            encode_utf8 v = v /\ read_back v = v /\ fits v) as Hplain.
  { intros v (Hascii & Hq & Hlen).
    split; [by apply encode_utf8_ascii|].
    assert (read_back v = v) as Hrb by by apply read_back_plain.
    split; [done|]. unfold fits. by rewrite Hrb. }
  rewrite load_written.
  - f_equal. apply Forall_fmap_ext.
    eapply Forall_impl; [exact Hok|]. intros q [_ Hq]. cbn beta.
    unfold values, fieldnames in Hq. cbn [fmap list_fmap] in Hq.
    unfold quote_of_record, quote_as_written, received.
    repeat (apply Forall_cons in Hq as [(-> & -> & _)%Hplain Hq]).
    reflexivity.
  - eapply Forall_impl; [exact Hok|]. intros q [Hdom Hq]. split; [done|].
    rewrite Forall_fmap. eapply Forall_impl; [exact Hq|].
    intros v Hv. cbn. destruct (Hplain v Hv) as (-> & _ & Hfits). done.
Qed.

Lemma X9_load_after_write_plain_witness :
  load_quotes_from_csv "quotes.csv"
    (write_quotes_to_csv [record_bare; record_bare] "quotes.csv" ∅).1
  = inr (quote_as_written <$> [record_bare; record_bare]).
Proof.
  apply (X9_load_after_write_plain [record_bare; record_bare] "quotes.csv" ∅).
  repeat (constructor; [split|]); try by_decision;
    try (repeat constructor; by vm_compute).
Defined.

(** X16: the reader's field size limit.  When a record has a value whose
    bytes, as the reader collects them, are more than 131072, the file is
    written without error but the quiz cannot load it: the load raises
    [csv.Error], and the quotes of the records before it are lost with
    it. *)
Theorem X16_oversize_field_fails_load
    (good : list (gmap string string)) bad
    (more : list (gmap string string)) filename fs :
  Forall (fun q : gmap string string =>
            dom q ⊆ list_to_set fieldnames /\
            Forall fits (encode_utf8 <$> values q)) good ->
  dom bad ⊆ list_to_set fieldnames ->
  Exists (fun v => ~ fits v) (encode_utf8 <$> values bad) ->
  Forall (fun q : gmap string string =>
            dom q ⊆ list_to_set fieldnames) more ->
  (write_quotes_to_csv (good ++ bad :: more) filename fs).2 = None /\
  load_quotes_from_csv filename
    (write_quotes_to_csv (good ++ bad :: more) filename fs).1
  = inl CsvError.
Proof.
  intros Hgood Hdom Hbad Hmore.
  assert (Forall (fun q : gmap string string =>
                    dom q ⊆ list_to_set fieldnames) (good ++ bad :: more))
    as Hall.
  { apply Forall_app. split; [|by constructor].
    eapply Forall_impl; [exact Hgood|]. by intros ? []. }
  rewrite write_ok by done. split; [done|]. cbn [fst].
  unfold load_quotes_from_csv. rewrite lookup_insert_eq.
  unfold decode_latin1. rewrite csv_text_utf8.
  cbn [fmap list_fmap csv_text foldr].
  rewrite row_run by apply header_fits. cbn [load_row].
  change (foldr (fun row text => writerow row +:+ text) "" ?rows)
    with (csv_text rows).
  rewrite (load_rows_overflow good bad more []); [done| |done].
  eapply Forall_impl; [exact Hgood|]. by intros ? [].
Qed.

Lemma long_value_too_long : ~ fits (encode_utf8 long_value).
Proof.
  unfold fits. apply N.lt_nge, N.leb_gt. vm_compute. reflexivity.
Qed.

Lemma X16_oversize_field_fails_load_witness :
  load_quotes_from_csv "quotes.csv"
    (write_quotes_to_csv ([record_bare] ++ record_long :: []) "quotes.csv" ∅).1
  = inl CsvError.
Proof.
  apply (X16_oversize_field_fails_load
           [record_bare] record_long [] "quotes.csv" ∅).
  - repeat (constructor; [split|]); try by_decision;
      try (repeat constructor; by vm_compute).
  - by_decision.
  - unfold values, fieldnames. cbn [fmap list_fmap]. apply Exists_cons_hd.
    exact long_value_too_long.
  - constructor.
Defined.

(** X10: from an empty crawl to the quiz.  A crawl with a page count of
    zero or less returns no record; written to [quotes.csv] this gives a
    file with the header row only; the quiz loads an empty list from it
    and stops with [IndexError] at its first draw, before it prints
    anything. *)
Theorem X10_quiz_after_empty_crawl
    server resolve fuel url num_pages w fs choice rounds c :
  (num_pages <= 0)%Z -> 0 < rounds ->
  exists rs w',
    Scraper.scrape_quotes server resolve fuel url num_pages w
      = (Net.Returned rs, w') /\
    load_quotes_from_csv "quotes.csv"
      (write_quotes_to_csv rs "quotes.csv" fs).1 = inr [] /\
    Game.main choice rounds (write_quotes_to_csv rs "quotes.csv" fs).1 c
      = (Raise IndexError, c).
Proof.
  intros Hn Hrounds. exists [], w.
  assert (load_quotes_from_csv "quotes.csv"
            (write_quotes_to_csv [] "quotes.csv" fs).1 = inr []) as Hload.
  { by rewrite (load_written [] "quotes.csv" fs). }
  split; [|split; [done|]].
  - unfold Scraper.scrape_quotes, Scraper.range. by rewrite seqZ_nil by lia.
  - unfold Game.main. rewrite Hload.
    destruct rounds as [|rounds]; [lia|]. reflexivity.
Qed.

Lemma X10_quiz_after_empty_crawl_witness :
  (0 <= 0)%Z /\ 0 < 1 /\
  exists rs w',
    Scraper.scrape_quotes Samples.up Samples.resolve_rooted 1
      Scraper.BASE_URL 0 Net.world0 = (Net.Returned rs, w') /\
    load_quotes_from_csv "quotes.csv"
      (write_quotes_to_csv rs "quotes.csv" ∅).1 = inr [] /\
    Game.main first_choice 1 (write_quotes_to_csv rs "quotes.csv" ∅).1
      (typed ["Ann"]) = (Raise IndexError, typed ["Ann"]).
Proof.
  split; [lia|]. split; [lia|].
  apply (X10_quiz_after_empty_crawl Samples.up Samples.resolve_rooted 1
           Scraper.BASE_URL 0 Net.world0 ∅ first_choice 1 (typed ["Ann"]));
    lia.
Defined.

End ExchangeExtras.

(** ** Further properties: the quiz *)
Module GameExtras.
Import PyStr Csv Game Exchange Exhibits.
Import PyStrFacts GameFacts.

(** X11: a lost round.  When the author's name has at least one word and
    four guesses in a row are wrong, the round reads exactly these four
    lines and the answer to "play again"; it prints the three hints in
    the order birthplace and date, initials, first sentence of the
    description, one after each of the first three wrong guesses and none
    after the fourth, counts the remaining guesses down from 3 to 0,
    names the author, and with an answer other than y ends. *)
Theorem X11_lost_round
    choice fuel quotes quote g1 g2 g3 g4 answer rest out d a b :
  quotes !! (choice d mod length quotes) = Some quote ->
  wrong quote g1 -> wrong quote g2 -> wrong quote g3 -> wrong quote g4 ->
  initials (author quote) = Some (a, b) ->
  lower answer <> "y" ->
  play_game choice (S fuel) quotes
    {| stdin := g1 :: g2 :: g3 :: g4 :: answer :: rest;
       stdout := out; draws := d |}
  = (Done tt,
     {| stdin := rest;
        stdout := out ++
          [ "Welcome to the guessing game!";
            "Here's your quote: " +:+ text quote;
            "Who said that? (You have 4 guesses remaining)";
            "Incorrect. You have 3 guesses remaining.";
            "Hint: The author was born in " +:+ birthplace quote +:+ " "
              +:+ birthdate quote +:+ ".";
            "Incorrect. You have 2 guesses remaining.";
            "Hint: The author's initials are " +:+ a +:+ "." +:+ b +:+ ".";
            "Incorrect. You have 1 guesses remaining.";
            "Hint: The author is known for "
              +:+ default "" (head (split "." (description quote))) +:+ ".";
            "Incorrect. You have 0 guesses remaining.";
            "Game over! The correct answer was " +:+ author quote +:+ ".";
            "Would you like to play again? (y/n): ";
            "Thanks for playing!" ];
        draws := S d |}).
Proof.
  intros Hq H1 H2 H3 H4 Hab Hanswer.
  cbn [play_game]. unfold bind at 1, get_random_quote.
  cbn [stdin stdout draws]. rewrite Hq.
  unfold bind at 1, print at 1. unfold bind at 1, print at 1.
  unfold bind at 1, print at 1. cbn [stdin stdout draws].
  unfold bind at 1. unfold MAX_GUESSES.
  rewrite guessing_wrong by done. unfold bind at 1.
  cbn [hint]. unfold print at 1. cbn [stdin stdout draws].
  rewrite guessing_wrong by done. unfold bind at 1.
  rewrite (hint_initials quote a b) by done.
  unfold print at 1. cbn [stdin stdout draws].
  rewrite guessing_wrong by done. unfold bind at 1.
  cbn [hint]. unfold print at 1. cbn [stdin stdout draws].
  rewrite guessing_wrong by done. unfold bind at 1.
  cbn [hint guessing]. unfold ret at 1 2.
  rewrite bool_decide_eq_true_2 by done.
  unfold bind at 1, print at 1. cbn [stdin stdout draws].
  unfold bind, input. cbn [stdin stdout draws].
  rewrite bool_decide_eq_false_2 by done.
  unfold print. cbn [stdin stdout draws].
  rewrite <- !app_assoc. reflexivity.
Qed.

Lemma X11_lost_round_witness :
  (play_game first_choice 1 [quote_ann]
     (typed ["Bob"; "Cy"; "Dee"; "Eve"; "n"; "left"])).1 = Done tt
  /\ stdin (play_game first_choice 1 [quote_ann]
              (typed ["Bob"; "Cy"; "Dee"; "Eve"; "n"; "left"])).2 = ["left"].
Proof.
  pose proof (X11_lost_round first_choice 0 [quote_ann] quote_ann
                "Bob" "Cy" "Dee" "Eve" "n" ["left"] [] 0 "A" "L") as H.
  unfold typed. rewrite H; [split; reflexivity|reflexivity|..];
    vm_compute; first [reflexivity | discriminate].
Defined.

(** X12: a right guess.  When the author's name has at least one word,
    then after fewer than four wrong guesses a guess that, once stripped,
    equals the author's name up to letter case ends the guessing with
    "Congratulations! You won!" printed last, with a positive number of
    guesses left (so that no "Game over!" follows), and without reading
    any further line. *)
Theorem X12_right_guess_wins quote wrongs guess rest out d :
  Forall (wrong quote) wrongs ->
  length wrongs < MAX_GUESSES ->
  words (author quote) <> [] ->
  lower (strip guess) = lower (author quote) ->
  exists out',
    guessing quote MAX_GUESSES 0
      {| stdin := wrongs ++ guess :: rest; stdout := out; draws := d |}
    = (Done (MAX_GUESSES - length wrongs),
       {| stdin := rest;
          stdout := out ++ out' ++ ["Congratulations! You won!"];
          draws := d |})
    /\ MAX_GUESSES - length wrongs <> 0.
Proof.
  intros Hwrongs Hlen Hwords Hright.
  destruct (guessing_wrongs quote wrongs MAX_GUESSES 0 (guess :: rest) out d)
    as [out' ->]; [done|lia|done|].
  exists out'. split; [|lia].
  destruct (MAX_GUESSES - length wrongs) as [|n] eqn:E; [lia|].
  rewrite guessing_right by done. by rewrite <- app_assoc.
Qed.

Lemma X12_right_guess_wins_witness :
  exists out',
    guessing quote_ann MAX_GUESSES 0 (typed (["Bob"; "Cy"] ++ "  ann LEE " :: []))
    = (Done (MAX_GUESSES - length ["Bob"; "Cy"]),
       {| stdin := [];
          stdout := [] ++ out' ++ ["Congratulations! You won!"];
          draws := 0 |}).
Proof.
  destruct (X12_right_guess_wins quote_ann ["Bob"; "Cy"] "  ann LEE " [] [] 0)
    as (out' & H & _).
  - repeat constructor; vm_compute; discriminate.
  - vm_compute. lia.
  - vm_compute. discriminate.
  - vm_compute. reflexivity.
  - exists out'. exact H.
Defined.

(** X13: an author without a word.  When the author's name is empty or
    all whitespace (as the scraper records an entry without author
    element), the second wrong guess makes the quiz stop with
    [IndexError], after the first hint and the second count. *)
Theorem X13_blank_author_stops_quiz
    choice fuel quotes quote g1 g2 rest out d :
  quotes !! (choice d mod length quotes) = Some quote ->
  words (author quote) = [] ->
  wrong quote g1 -> wrong quote g2 ->
  play_game choice (S fuel) quotes
    {| stdin := g1 :: g2 :: rest; stdout := out; draws := d |}
  = (Raise IndexError,
     {| stdin := rest;
        stdout := out ++
          [ "Welcome to the guessing game!";
            "Here's your quote: " +:+ text quote;
            "Who said that? (You have 4 guesses remaining)";
            "Incorrect. You have 3 guesses remaining.";
            "Hint: The author was born in " +:+ birthplace quote +:+ " "
              +:+ birthdate quote +:+ ".";
            "Incorrect. You have 2 guesses remaining." ];
        draws := S d |}).
Proof.
  intros Hq Hwords H1 H2.
  cbn [play_game]. unfold bind at 1, get_random_quote.
  cbn [stdin stdout draws]. rewrite Hq.
  unfold bind at 1, print at 1. unfold bind at 1, print at 1.
  unfold bind at 1, print at 1. cbn [stdin stdout draws].
  unfold bind at 1. unfold MAX_GUESSES.
  rewrite guessing_wrong by done. unfold bind at 1.
  cbn [hint]. unfold print at 1. cbn [stdin stdout draws].
  rewrite guessing_wrong by done. unfold bind at 1.
  rewrite hint_no_initials by by apply initials_none.
  rewrite <- !app_assoc. reflexivity.
Qed.

Lemma X13_blank_author_stops_quiz_witness :
  play_game first_choice 1 [quote_anonymous] (typed ["Ann"; "Bob"; "Cy"])
  = (Raise IndexError,
     {| stdin := ["Cy"];
        stdout := [] ++
          [ "Welcome to the guessing game!";
            "Here's your quote: " +:+ text quote_anonymous;
            "Who said that? (You have 4 guesses remaining)";
            "Incorrect. You have 3 guesses remaining.";
            "Hint: The author was born in " +:+ birthplace quote_anonymous
              +:+ " " +:+ birthdate quote_anonymous +:+ ".";
            "Incorrect. You have 2 guesses remaining." ];
        draws := 1 |}).
Proof.
  apply (X13_blank_author_stops_quiz first_choice 0 [quote_anonymous]
           quote_anonymous "Ann" "Bob" ["Cy"] [] 0);
    first [reflexivity | vm_compute; discriminate].
Defined.

(** X14: the guessing loop reads at most as many lines as there are
    guesses left, whatever is typed and however it ends; a round of the
    quiz therefore reads at most four guesses. *)
Theorem X14_guessing_reads_at_most quote guesses_remaining hints_given c :
  exists used,
    stdin c
    = used ++ stdin (guessing quote guesses_remaining hints_given c).2
    /\ length used <= guesses_remaining.
Proof. apply guessing_reads. Qed.

(** X15: the quiz ends with its input.  Every further round reads at
    least two lines, so with [n] lines left fewer than [n/2 + 1] rounds
    are begun: the play-again recursion never goes deeper than that, and
    the quiz ends by declining, by the end of the input or by an
    exception. *)
Theorem X15_quiz_ends_with_input choice fuel quotes c :
  length (stdin c) < 2 * fuel ->
  (play_game choice fuel quotes c).1 <> OutOfFuel.
Proof. apply play_game_terminates. Qed.

Lemma X15_quiz_ends_with_input_witness :
  length (stdin (typed ["Ann Lee"; "y"; "Ann Lee"])) < 2 * 2 /\
  (play_game first_choice 2 [quote_ann]
     (typed ["Ann Lee"; "y"; "Ann Lee"])).1 <> OutOfFuel.
Proof.
  split; [cbn; lia|].
  apply (X15_quiz_ends_with_input first_choice 2 [quote_ann]
           (typed ["Ann Lee"; "y"; "Ann Lee"])).
  cbn. lia.
Defined.

End GameExtras.
